(** * Template matcher (python-matcher/app.py): a shallow embedding

    The matching service of [app.py] is embedded function by function.
    Conventions of the embedding:

    - In the request handler Python [float] values are exact rationals
      [Q] and numeric equality ([==] in Python) is [Qeq]; the one
      conversion to single precision the handler depends on,
      [result >= min_similarity], is the field [float32].  Where the
      rounding of binary64 decides a property, the function is embedded
      a second time: in [Rounded], with a rounding after every
      operation, and in [B64], over the primitive binary64 floats.
    - Python [int] values are [Z].
    - A numpy array is a functional array [ndarray]: its shape and a cell
      function.  Slicing, [astype]/division and [np.where] are defined
      here; the OpenCV calls ([cv2.resize], [cv2.matchTemplate], ...) and
      the image decoder are fields of the interface [Externals], and are
      taken to return normally.
    - [time.perf_counter] reads an explicit [Clock] that is threaded
      through the sweep.
    - [raise HTTPException] is the left injection of the result type. *)

From Stdlib Require Import ZArith QArith Qround Qabs List Sorted Permutation.
From Stdlib Require Import String Bool Lia Lqa.
From Stdlib Require Floats.
Import ListNotations.
Open Scope Q_scope.

(** ** Python numerics *)

Module Py.

(** [a < b] and [a <= b] on floats, as booleans. *)
Definition ltb (a b : Q) : bool := negb (Qle_bool b a).
Definition leb (a b : Q) : bool := Qle_bool a b.

(** [max(a, b)]: the first argument unless the second is strictly larger. *)
Definition max (a b : Q) : Q := if ltb a b then b else a.

(** [min(a, b)]: the first argument unless the second is strictly smaller. *)
Definition min (a b : Q) : Q := if ltb b a then b else a.

(** [round(q)] with no digits argument: nearest integer, ties to even. *)
Definition round (q : Q) : Z :=
  let n := Qfloor (q + (1 # 2)) in
  if Qeq_bool (inject_Z n) (q + (1 # 2)) && Z.odd n then (n - 1)%Z else n.

(** [int(q)]: truncation towards zero. *)
Definition int (q : Q) : Z := Z.quot (Qnum q) (Zpos (Qden q)).

End Py.

(** ** Module-level constants *)

Definition MAX_GLOBAL_SEARCH_DIMENSION : Z := 1600.
Definition MIN_TEMPLATE_DIMENSION : Z := 5.
Definition MAX_PASS_HITS_MULTIPLIER : Z := 6.

(** [clamp(value, min_value, max_value)] *)
Definition clamp (value min_value max_value : Q) : Q :=
  Py.max min_value (Py.min max_value value).

(** ** numpy arrays

    A two-dimensional array is its shape and its cell function; cells
    outside the shape are never read by the embedded code. *)

Record ndarray (A : Type) : Type := mkarray {
  nrows : nat;
  ncols : nat;
  cell : nat -> nat -> A
}.
Arguments mkarray {A} _ _ _.
Arguments nrows {A} _.
Arguments ncols {A} _.
Arguments cell {A} _ _ _.

Module Np.

(** [a.shape[0]], [a.shape[1]] and [a.size] as Python integers. *)
Definition shape0 {A} (a : ndarray A) : Z := Z.of_nat (nrows a).
Definition shape1 {A} (a : ndarray A) : Z := Z.of_nat (ncols a).
Definition size {A} (a : ndarray A) : Z := (shape0 a * shape1 a)%Z.

(** One bound of a slice [start:stop] (step 1) over an axis of length
    [n]: a negative bound counts from the end, and the result is clipped
    to [0, n]. *)
Definition slice_bound (i n : Z) : Z :=
  if (i <? 0)%Z then Z.max 0 (i + n) else Z.min i n.

(** [a[top:bottom, left:right]] *)
Definition slice2 {A} (a : ndarray A) (top bottom left right : Z) : ndarray A :=
  let r0 := slice_bound top (shape0 a) in
  let r1 := slice_bound bottom (shape0 a) in
  let c0 := slice_bound left (shape1 a) in
  let c1 := slice_bound right (shape1 a) in
  mkarray (Z.to_nat (r1 - r0)) (Z.to_nat (c1 - c0))
          (fun r c => cell a (Z.to_nat r0 + r) (Z.to_nat c0 + c)).

(** Cell-wise application, as in [a.astype(np.float32) / 255.0]. *)
Definition map {A B} (f : A -> B) (a : ndarray A) : ndarray B :=
  mkarray (nrows a) (ncols a) (fun r c => f (cell a r c)).

(** The cell indices [(row, col)] in row-major order. *)
Definition indices {A} (a : ndarray A) : list (nat * nat) :=
  flat_map (fun r => List.map (fun c => (r, c)) (seq 0 (ncols a)))
           (seq 0 (nrows a)).

(** [np.where(a >= threshold)], as the list of [(row, col)] pairs. *)
Definition where_ge (a : ndarray Q) (threshold : Q) : list (nat * nat) :=
  filter (fun rc => Py.leb threshold (cell a (fst rc) (snd rc))) (indices a).

(** [a.max()] of a non-empty array; [None] stands for the [ValueError]
    numpy raises on an empty one (the caller tests [a.size] first). *)
Definition amax (a : ndarray Q) : option Q :=
  match List.map (fun rc => cell a (fst rc) (snd rc)) (indices a) with
  | [] => None
  | v :: vs => Some (fold_left Py.max vs v)
  end.

End Np.

(** [sorted(items, key=key, reverse=True)]: a stable sort by descending
    key, so items with equal keys keep their original order. *)
Fixpoint insert_desc {A} (key : A -> Q) (a : A) (l : list A) : list A :=
  match l with
  | [] => [a]
  | b :: l' => if Py.ltb (key a) (key b) then b :: insert_desc key a l'
               else a :: l
  end.

Definition sorted_desc {A} (key : A -> Q) (l : list A) : list A :=
  fold_right (insert_desc key) [] l.

(** [a] may stand before [b] in a list that descends by [key]. *)
Definition desc {A} (key : A -> Q) (a b : A) : Prop := key b <= key a.

(** ** Request and response models *)

(** [class Selection(BaseModel)] *)
Module Selection.
Record t : Type := mk { x : Q; y : Q; width : Q; height : Q }.

(** The field constraints pydantic checks on a request:
    [ge=0, le=1] for [x], [y] and [gt=0, le=1] for [width], [height]. *)
Definition fields_valid (s : t) : Prop :=
  0 <= x s <= 1 /\ 0 <= y s <= 1 /\
  0 < width s <= 1 /\ 0 < height s <= 1.

(** Each of the four fields lies in [0, 1]. *)
Definition in_unit (s : t) : Prop :=
  0 <= x s <= 1 /\ 0 <= y s <= 1 /\
  0 <= width s <= 1 /\ 0 <= height s <= 1.

(** The far edges stay inside the unit square. *)
Definition inside (s : t) : Prop :=
  x s + width s <= 1 /\ y s + height s <= 1.
End Selection.

(** [class MatchOptions(BaseModel)] *)
Module MatchOptions.
Record t : Type := mk {
  mode : string;
  min_similarity : Q;
  max_matches : Z;
  nms_iou : Q;
  scales : option (list Q);
  rotations : option (list Q);
  search_padding : option Q;
  label : option string
}.

(** [MatchOptions()]: every field at its default. *)
Definition default : t :=
  mk "auto" (6 # 10) 80 (35 # 100) None None None None.

Definition with_scales (o : t) (v : option (list Q)) : t :=
  mk (mode o) (min_similarity o) (max_matches o) (nms_iou o)
     v (rotations o) (search_padding o) (label o).

Definition with_rotations (o : t) (v : option (list Q)) : t :=
  mk (mode o) (min_similarity o) (max_matches o) (nms_iou o)
     (scales o) v (search_padding o) (label o).
End MatchOptions.

(** [class MatchRequest(BaseModel)] *)
Module MatchRequest.
Record t : Type := mk {
  image : string;
  coordinates : Selection.t;
  options : option MatchOptions.t
}.
End MatchRequest.

(** A candidate box: the dict with keys [x], [y], [width], [height],
    [score] and [pass] appended to [candidates]. *)
Module Candidate.
Record t : Type := mk {
  x : Q; y : Q; width : Q; height : Q; score : Q; pass : string
}.
End Candidate.

(** One entry of [stats]. *)
Module PassStat.
Record t : Type := mk {
  pass : string;
  candidates : Z;
  kept : Z;
  durationMs : Q;
  bestSimilarity : option Q
}.
End PassStat.

(** One entry of [matches]; [boundingBox] is the dict with keys [x],
    [y], [width], [height], carried here in a [Selection.t]. *)
Module Match.
Record t : Type := mk {
  label : string;
  confidence : Q;
  boundingBox : Selection.t;
  templateSimilarity : Q;
  templatePass : string
}.
End Match.

(** The dict returned by [match_selection]. *)
Module Response.
Record t : Type := mk {
  matches : list Match.t;
  stats : list PassStat.t;
  bestSimilarity : option Q;
  selection : Selection.t;
  searchRegion : Selection.t
}.
End Response.

(** [HTTPException(status_code, detail)] *)
Record HTTPException : Type := mkHTTPException {
  status_code : Z;
  detail : string
}.

(** ** The clock behind [time.perf_counter] *)

Record Clock : Type := mkClock {
  reading : nat -> Q;   (* the value returned by the n-th call *)
  calls : nat           (* calls made so far *)
}.

Definition perf_counter (c : Clock) : Q * Clock :=
  (reading c (calls c), mkClock (reading c) (S (calls c))).

(** ** External collaborators

    The 2x3 matrix of [cv2.getRotationMatrix2D], row by row. *)
Record Affine : Type := mkAffine {
  m00 : Q; m01 : Q; m02 : Q;
  m10 : Q; m11 : Q; m12 : Q
}.

(** A BGR pixel. *)
Definition bgr : Type := (Z * Z * Z)%type.

Class Externals : Type := {
  (** [decode_image_data(data)]: the text of the exception it raises, or
      the decoded BGR image. *)
  decode_image_data : string -> string + ndarray bgr;
  (** [cv2.cvtColor(image, cv2.COLOR_BGR2GRAY)], per pixel. *)
  bgr2gray : bgr -> Z;
  (** [cv2.resize(src, (width, height), interpolation=cv2.INTER_AREA)] *)
  resize_area : ndarray Z -> Z -> Z -> ndarray Z;
  (** [cv2.resize(src, (0, 0), fx=fx, fy=fy, interpolation=cv2.INTER_LINEAR)] *)
  resize_linear : ndarray Q -> Q -> Q -> ndarray Q;
  (** [cv2.getRotationMatrix2D(center, angle, scale)] *)
  getRotationMatrix2D : Q * Q -> Q -> Q -> Affine;
  (** [cv2.warpAffine(src, matrix, (width, height), flags=cv2.INTER_LINEAR)] *)
  warpAffine : ndarray Q -> Affine -> Z * Z -> ndarray Q;
  (** [cv2.GaussianBlur(src, ksize, sigma)] *)
  GaussianBlur : ndarray Z -> Z * Z -> Q -> ndarray Z;
  (** [cv2.Canny(src, low, high)] *)
  Canny : ndarray Z -> Z -> Z -> ndarray Z;
  (** [cv2.normalize(src, None, alpha, beta, norm_type=cv2.NORM_MINMAX)] *)
  normalize_minmax : ndarray Z -> Z -> Z -> ndarray Z;
  (** [cv2.matchTemplate(image, templ, cv2.TM_CCOEFF_NORMED)] *)
  matchTemplate : ndarray Q -> ndarray Q -> ndarray Q;
  (** the f-string [f"scale={scale:.2f}_rot={rotation:.0f}"] *)
  format_pass : Q -> Q -> string;
  (** [np.float32(value)]: the single-precision value numpy turns a
      Python float into when it meets a [float32] array, as in
      [result >= min_similarity]. *)
  float32 : Q -> Q
}.

(** What the proofs use of OpenCV's documented behaviour: the map of
    [cv2.matchTemplate] has one cell per placement of the template
    inside the image. *)
Class ExternalsSpec (E : Externals) : Prop := {
  matchTemplate_rows : forall img tpl, (nrows tpl <= nrows img)%nat ->
    nrows (matchTemplate img tpl) = (nrows img - nrows tpl + 1)%nat;
  matchTemplate_cols : forall img tpl, (ncols tpl <= ncols img)%nat ->
    ncols (matchTemplate img tpl) = (ncols img - ncols tpl + 1)%nat
}.

(** ** CoordinateMapper *)

(** [normalized_to_pixels(box, width, height)] *)
Definition normalized_to_pixels (box : Selection.t) (width height : Z)
  : Z * Z * Z * Z :=
  let x := clamp (Selection.x box) 0 1 in
  let y := clamp (Selection.y box) 0 1 in
  let w := clamp (Selection.width box) (1 # 10000) (1 - x) in
  let h := clamp (Selection.height box) (1 # 10000) (1 - y) in
  let left := Py.round (x * inject_Z width) in
  let top := Py.round (y * inject_Z height) in
  let right := Py.round ((x + w) * inject_Z width) in
  let bottom := Py.round ((y + h) * inject_Z height) in
  (left, top, right, bottom).

(** [expand_box(box, padding)] *)
Definition expand_box (box : Selection.t) (padding : Q) : Selection.t :=
  if Py.leb padding 0 then box
  else
    let pad_w := Selection.width box * padding in
    let pad_h := Selection.height box * padding in
    let x := clamp (Selection.x box - pad_w) 0 1 in
    let y := clamp (Selection.y box - pad_h) 0 1 in
    let right := clamp (Selection.x box + Selection.width box + pad_w) 0 1 in
    let bottom := clamp (Selection.y box + Selection.height box + pad_h) 0 1 in
    Selection.mk x y (right - x) (bottom - y).

(** ** Deduplicator *)

(** [intersection_over_union(a, b)] *)
Definition intersection_over_union (a b : Candidate.t) : Q :=
  let x1 := Py.max (Candidate.x a) (Candidate.x b) in
  let y1 := Py.max (Candidate.y a) (Candidate.y b) in
  let x2 := Py.min (Candidate.x a + Candidate.width a)
                   (Candidate.x b + Candidate.width b) in
  let y2 := Py.min (Candidate.y a + Candidate.height a)
                   (Candidate.y b + Candidate.height b) in
  let inter_area := Py.max 0 (x2 - x1) * Py.max 0 (y2 - y1) in
  if Py.leb inter_area 0 then 0
  else
    let area_a := Candidate.width a * Candidate.height a in
    let area_b := Candidate.width b * Candidate.height b in
    let union := area_a + area_b - inter_area in
    if Py.ltb 0 union then inter_area / union else 0.


(** The [while boxes and len(picked) < max_detections] loop of
    [non_max_suppression].  Every iteration removes the head of [boxes],
    so [length boxes] iterations are enough; [fuel] counts them. *)
Fixpoint nms_while (fuel : nat) (iou_threshold : Q) (max_detections : Z)
    (boxes picked : list Candidate.t) : list Candidate.t :=
  match fuel with
  | O => picked
  | S fuel' =>
    match boxes with
    | [] => picked
    | current :: rest =>
      if (Z.of_nat (List.length picked) <? max_detections)%Z then
        nms_while fuel' iou_threshold max_detections
          (filter (fun candidate =>
                     Py.leb (intersection_over_union candidate current)
                            iou_threshold) rest)
          (picked ++ [current])
      else picked
    end
  end.

(** [non_max_suppression(boxes, iou_threshold, max_detections)] *)
Definition non_max_suppression (boxes : list Candidate.t)
    (iou_threshold : Q) (max_detections : Z) : list Candidate.t :=
  match boxes with
  | [] => []
  | _ =>
    let boxes := sorted_desc Candidate.score boxes in
    nms_while (List.length boxes) iou_threshold max_detections boxes []
  end.

(** ** Rounded arithmetic

    A floating-point operation is the exact operation followed by a
    rounding [rnd] to the nearest representable number.  [Rounding rnd]
    collects what the proofs use of such a rounding: it respects numeric
    equality and order, it leaves representable numbers (its own
    results, 0 and 1) unchanged, and doubling a representable number is
    exact.  Binary64 rounds this way as long as nothing overflows. *)
Class Rounding (rnd : Q -> Q) : Prop := {
  rnd_compat : forall a b, a == b -> rnd a == rnd b;
  rnd_mono : forall a b, a <= b -> rnd a <= rnd b;
  rnd_idem : forall a, rnd (rnd a) == rnd a;
  rnd_zero : rnd 0 == 0;
  rnd_one : rnd 1 == 1;
  rnd_double : forall a, rnd (rnd a + rnd a) == rnd a + rnd a
}.

Module Rounded.

Section Operations.
Variable rnd : Q -> Q.

Definition add (a b : Q) : Q := rnd (a + b).
Definition sub (a b : Q) : Q := rnd (a - b).
Definition mul (a b : Q) : Q := rnd (a * b).
Definition div (a b : Q) : Q := rnd (a / b).

(** [intersection_over_union(a, b)], every operation rounded. *)
Definition intersection_over_union (a b : Candidate.t) : Q :=
  let x1 := Py.max (Candidate.x a) (Candidate.x b) in
  let y1 := Py.max (Candidate.y a) (Candidate.y b) in
  let x2 := Py.min (add (Candidate.x a) (Candidate.width a))
                   (add (Candidate.x b) (Candidate.width b)) in
  let y2 := Py.min (add (Candidate.y a) (Candidate.height a))
                   (add (Candidate.y b) (Candidate.height b)) in
  let inter_area := mul (Py.max 0 (sub x2 x1)) (Py.max 0 (sub y2 y1)) in
  if Py.leb inter_area 0 then 0
  else
    let area_a := mul (Candidate.width a) (Candidate.height a) in
    let area_b := mul (Candidate.width b) (Candidate.height b) in
    let union := sub (add area_a area_b) inter_area in
    if Py.ltb 0 union then div inter_area union else 0.





End Operations.

(** No rounding at all, and rounding to the multiples of 1/1024. *)
Definition exact (q : Q) : Q := q.

End Rounded.

(** ** The same functions over binary64

    [expand_box] and [intersection_over_union] once more, over the
    primitive binary64 numbers, with the field constraints that
    [Selection(...)] checks when [expand_box] builds its result. *)
Module B64.
Import PrimFloat FloatOps SpecFloat.
Local Open Scope float_scope.

(** [max(a, b)] and [min(a, b)] of Python. *)
Definition max (a b : float) : float := if ltb a b then b else a.
Definition min (a b : float) : float := if ltb b a then b else a.

(** [clamp(value, min_value, max_value)] *)
Definition clamp (value min_value max_value : float) : float :=
  max min_value (min max_value value).

(** The fields of a [Selection]. *)
Record selection : Type := mkselection {
  x : float; y : float; width : float; height : float
}.

(** The constraints of the four fields: [ge=0, le=1] and [gt=0, le=1]. *)
Definition validates (s : selection) : bool :=
  leb 0 (x s) && leb (x s) 1 && leb 0 (y s) && leb (y s) 1
  && ltb 0 (width s) && leb (width s) 1
  && ltb 0 (height s) && leb (height s) 1.

(** The far edges stay inside the unit square: [x + width <= 1] and
    [y + height <= 1]. *)
Definition inside (s : selection) : bool :=
  leb (x s + width s) 1 && leb (y s + height s) 1.

(** The constraint of [MatchOptions.search_padding]: [ge=0, le=5]. *)
Definition padding_validates (padding : float) : bool :=
  leb 0 padding && leb padding 5.

(** What a call of [expand_box] ends in. *)
Inductive outcome : Type :=
| Returned (s : selection)
| ValidationError.

(** [expand_box(box, padding)] *)
Definition expand_box (box : selection) (padding : float) : outcome :=
  if leb padding 0 then Returned box
  else
    let pad_w := width box * padding in
    let pad_h := height box * padding in
    let x' := clamp (x box - pad_w) 0 1 in
    let y' := clamp (y box - pad_h) 0 1 in
    let right := clamp (x box + width box + pad_w) 0 1 in
    let bottom := clamp (y box + height box + pad_h) 0 1 in
    let s := mkselection x' y' (right - x') (bottom - y') in
    if validates s then Returned s else ValidationError.

(** The search box of a request, as [match_selection] resolves it
    before it looks at the size of the selection. *)
Definition search_box (selection : selection) (search_padding : option float)
  : outcome :=
  match search_padding with
  | None => Returned (mkselection 0 0 1 1)
  | Some padding => expand_box selection padding
  end.

(** The four geometric keys of a candidate dict. *)
Record candidate : Type := mkcandidate {
  cx : float; cy : float; cwidth : float; cheight : float
}.

(** [intersection_over_union(a, b)] *)
Definition intersection_over_union (a b : candidate) : float :=
  let x1 := max (cx a) (cx b) in
  let y1 := max (cy a) (cy b) in
  let x2 := min (cx a + cwidth a) (cx b + cwidth b) in
  let y2 := min (cy a + cheight a) (cy b + cheight b) in
  let inter_area := max 0 (x2 - x1) * max 0 (y2 - y1) in
  if leb inter_area 0 then 0
  else
    let area_a := cwidth a * cheight a in
    let area_b := cwidth b * cheight b in
    let union := area_a + area_b - inter_area in
    if ltb 0 union then inter_area / union else 0.

(** The rational a finite binary64 number stands for. *)
Definition to_Q (f : float) : Q :=
  match Prim2SF f with
  | S754_finite s m e =>
    (if s then - inject_Z (Zpos m) else inject_Z (Zpos m)) * 2 ^ e
  | _ => 0%Q
  end.

(** 0.0, and the rectangle [Selection(x=0, y=0, width=1, height=1)]. *)
Definition zero : float := 0.
Definition whole : selection := mkselection 0 0 1 1.

(** 0.1, 0.2 and 0.02 as binary64 numbers. *)
Definition tenth : float := 0x1.999999999999ap-4.
Definition fifth : float := 0x1.999999999999ap-3.
Definition fiftieth : float := 0x1.47ae147ae147bp-6.

(** The box [(0.1, 0.1, 0.2, 0.2)]. *)
Definition fifth_box : candidate := mkcandidate tenth tenth fifth fifth.

(** The valid rectangle [(0.02, 0, 0.1, 1)] and the padding [2^-55]. *)
Definition strip : selection := mkselection fiftieth 0 tenth 1.
Definition faint_padding : float := 0x1p-55.

(** The valid rectangle [(0.5, 0.5, 2^-60, 2^-60)] and the padding 0.5. *)
Definition speck : selection := mkselection 0.5 0.5 0x1p-60 0x1p-60.
Definition half_padding : float := 0.5.

(** [a < b] on binary64 numbers. *)
Definition lt (a b : float) : Prop := ltb a b = true.

End B64.

(** The same loop without the accumulator: [k] is the number of boxes
    that may still be picked. *)
Fixpoint nms_pick (iou_threshold : Q) (k : nat) (boxes : list Candidate.t)
  : list Candidate.t :=
  match k, boxes with
  | S k', current :: rest =>
    current ::
    nms_pick iou_threshold k'
      (filter (fun candidate =>
                 Py.leb (intersection_over_union candidate current)
                        iou_threshold) rest)
  | _, _ => []
  end.

(** Sample boxes: two that overlap and one far away. *)
Definition box_a : Candidate.t :=
  Candidate.mk 10 10 20 20 (9 # 10) "scale=1.00_rot=0".
Definition box_b : Candidate.t :=
  Candidate.mk 20 15 20 20 (8 # 10) "scale=1.00_rot=0".
Definition box_far : Candidate.t :=
  Candidate.mk 100 100 5 5 (7 # 10) "scale=0.85_rot=0".

(** ** State of the request handler

    The local variables of [match_selection] that are live when the
    sweep starts. *)
Module Locals.
Record t : Type := mk {
  width : Z;
  height : Z;
  selection : Selection.t;
  options : MatchOptions.t;
  template_label : string;
  min_similarity : Q;
  search_box : Selection.t;
  search_left : Z;
  search_top : Z;
  downscale_factor : Q;
  base_template : ndarray Q;
  search_surface : ndarray Q;
  search_height : Z;
  search_width : Z;
  default_scales : list Q;
  default_rotations : list Q
}.
End Locals.

(** The two lists the loops append to, and the clock. *)
Module Sweep.
Record t : Type := mk {
  candidates : list Candidate.t;
  stats : list PassStat.t;
  clock : Clock
}.
End Sweep.

Section Pipeline.
Context {E : Externals}.

(** ** ScaleGuard *)

(** [maybe_downscale_search(search_patch, template_patch)] *)
Definition maybe_downscale_search (search_patch template_patch : ndarray Z)
  : ndarray Z * ndarray Z * Q :=
  let search_height := Np.shape0 search_patch in
  let search_width := Np.shape1 search_patch in
  let max_dim := Z.max search_height search_width in
  if (max_dim <=? MAX_GLOBAL_SEARCH_DIMENSION)%Z then
    (search_patch, template_patch, 1)
  else
    let scale_factor :=
      inject_Z MAX_GLOBAL_SEARCH_DIMENSION / inject_Z max_dim in
    let template_min_dim :=
      Z.max 1 (Z.min (Np.shape0 template_patch) (Np.shape1 template_patch)) in
    let min_scale_allowed :=
      Py.max (inject_Z MIN_TEMPLATE_DIMENSION / inject_Z template_min_dim)
             (5 # 100) in
    let scale_factor := Py.max scale_factor min_scale_allowed in
    let scale_factor := Py.min scale_factor 1 in
    if Py.leb (999 # 1000) scale_factor then
      (search_patch, template_patch, 1)
    else
      let new_search_width :=
        Z.max 8 (Py.round (inject_Z search_width * scale_factor)) in
      let new_search_height :=
        Z.max 8 (Py.round (inject_Z search_height * scale_factor)) in
      let resized_search :=
        resize_area search_patch new_search_width new_search_height in
      let new_template_width :=
        Z.max MIN_TEMPLATE_DIMENSION
          (Py.round (inject_Z (Np.shape1 template_patch) * scale_factor)) in
      let new_template_height :=
        Z.max MIN_TEMPLATE_DIMENSION
          (Py.round (inject_Z (Np.shape0 template_patch) * scale_factor)) in
      let resized_template :=
        resize_area template_patch new_template_width new_template_height in
      (resized_search, resized_template, scale_factor).

(** ** Preprocessor *)

(** [to_grayscale(image)].  The decoder always hands over a three-channel
    array, so the branch for two-dimensional input is never taken. *)
Definition to_grayscale (image : ndarray bgr) : ndarray Z :=
  Np.map bgr2gray image.

(** [a.astype(np.float32) / 255.0] *)
Definition to_unit_float (a : ndarray Z) : ndarray Q :=
  Np.map (fun v => inject_Z v / 255) a.

(** [rotate_template(template, angle)] *)
Definition rotate_template (template : ndarray Q) (angle : Q) : ndarray Q :=
  if Qeq_bool angle 0 then template
  else
    let center := (inject_Z (Np.shape1 template) / 2,
                   inject_Z (Np.shape0 template) / 2) in
    let matrix := getRotationMatrix2D center angle 1 in
    let abs_cos := Qabs (m00 matrix) in
    let abs_sin := Qabs (m01 matrix) in
    let width := Py.int (inject_Z (Np.shape0 template) * abs_sin
                         + inject_Z (Np.shape1 template) * abs_cos) in
    let height := Py.int (inject_Z (Np.shape0 template) * abs_cos
                          + inject_Z (Np.shape1 template) * abs_sin) in
    let matrix :=
      mkAffine (m00 matrix) (m01 matrix)
               (m02 matrix + (inject_Z width / 2 - fst center))
               (m10 matrix) (m11 matrix)
               (m12 matrix + (inject_Z height / 2 - snd center)) in
    warpAffine template matrix (width, height).

(** [apply_mode_preprocess(template, mode)] *)
Definition apply_mode_preprocess (template : ndarray Z) (mode : string)
  : ndarray Q :=
  if String.eqb mode "linework" then
    let blurred := GaussianBlur template (3, 3)%Z (4 # 10) in
    let edges := Canny blurred 24 72 in
    to_unit_float edges
  else if String.eqb mode "texture" then
    to_unit_float (GaussianBlur template (5, 5)%Z (8 # 10))
  else
    let normalized := normalize_minmax template 0 255 in
    to_unit_float normalized.

(** ** The request handler

    [match_selection] is embedded in three parts: [prepare] (from the
    decoding to the resolved scale and rotation lists), [sweep] (the two
    nested loops) and [respond] (from the test of [candidates] to the
    returned dict). *)

(** [value or default] on an optional list: [None] and the empty list
    are both falsy. *)
Definition list_or (value : option (list Q)) (default : list Q) : list Q :=
  match value with
  | Some ((_ :: _) as l) => l
  | _ => default
  end.

(** [value or default] on an optional string. *)
Definition string_or (value : option string) (default : string) : string :=
  match value with
  | Some ((String _ _) as s) => s
  | _ => default
  end.


(** [payload.options or MatchOptions()] *)
Definition resolved_options (payload : MatchRequest.t) : MatchOptions.t :=
  match MatchRequest.options payload with
  | Some o => o
  | None => MatchOptions.default
  end.

(** The search region of a request: the whole image when
    [search_padding] is unset, the padded selection otherwise. *)
Definition resolved_search_box (payload : MatchRequest.t) : Selection.t :=
  match MatchOptions.search_padding (resolved_options payload) with
  | None => Selection.mk 0 0 1 1
  | Some padding => expand_box (MatchRequest.coordinates payload) padding
  end.

Definition prepare (payload : MatchRequest.t) : HTTPException + Locals.t :=
  match decode_image_data (MatchRequest.image payload) with
  | inl exc =>
    inl (mkHTTPException 400 ("Failed to decode image: " ++ exc))
  | inr image_bgr =>
    let height := Np.shape0 image_bgr in
    let width := Np.shape1 image_bgr in
    if (width =? 0)%Z || (height =? 0)%Z then
      inl (mkHTTPException 400 "Invalid image dimensions")
    else
      let selection := MatchRequest.coordinates payload in
      let options :=
        match MatchRequest.options payload with
        | Some o => o
        | None => MatchOptions.default
        end in
      let template_label :=
        string_or (MatchOptions.label options) "template-match" in
      let min_similarity :=
        clamp (MatchOptions.min_similarity options) (-1) 1 in
      let search_box :=
        match MatchOptions.search_padding options with
        | None => Selection.mk 0 0 1 1
        | Some padding => expand_box selection padding
        end in
      let '(sel_left, sel_top, sel_right, sel_bottom) :=
        normalized_to_pixels selection width height in
      let '(search_left, search_top, search_right, search_bottom) :=
        normalized_to_pixels search_box width height in
      let image_gray := to_grayscale image_bgr in
      let search_patch :=
        Np.slice2 image_gray search_top search_bottom search_left search_right in
      let template_patch :=
        Np.slice2 image_gray sel_top sel_bottom sel_left sel_right in
      if (Np.shape0 template_patch <? 5)%Z || (Np.shape1 template_patch <? 5)%Z
      then
        inl (mkHTTPException 400 "Selection too small for template matching")
      else
        let '(search_patch_proc, template_patch_proc, downscale_factor) :=
          maybe_downscale_search search_patch template_patch in
        let downscale_factor := Py.max downscale_factor (1 # 1000) in
        let base_template :=
          apply_mode_preprocess template_patch_proc (MatchOptions.mode options) in
        let search_surface := to_unit_float search_patch_proc in
        let search_height := Np.shape0 search_surface in
        let search_width := Np.shape1 search_surface in
        let default_scales :=
          list_or (MatchOptions.scales options)
                  [65 # 100; 85 # 100; 1; 12 # 10; 145 # 100] in
        let default_rotations :=
          list_or (MatchOptions.rotations options) [0] in
        inr (Locals.mk width height selection options template_label
               min_similarity search_box search_left search_top
               downscale_factor base_template search_surface
               search_height search_width default_scales default_rotations)
  end.


(** The hits of one pass: [(x, y)] pairs, capped at [max_hits] by
    descending score. *)
Definition pass_hits (result : ndarray Q) (min_similarity : Q) (max_matches : Z)
  : list (nat * nat) :=
  let locations := Np.where_ge result min_similarity in
  let hits := List.map (fun rc => (snd rc, fst rc)) locations in
  let max_hits := Z.max (max_matches * MAX_PASS_HITS_MULTIPLIER) 400 in
  if (max_hits <? Z.of_nat (List.length hits))%Z then
    let scored_hits :=
      sorted_desc fst
        (List.map (fun xy => (cell result (snd xy) (fst xy), xy)) hits) in
    List.map snd
      (firstn (Z.to_nat (Np.slice_bound max_hits
                           (Z.of_nat (List.length scored_hits))))
              scored_hits)
  else hits.

Definition Qnat (n : nat) : Q := inject_Z (Z.of_nat n).

(** The body of the inner loop once [variant] has passed the size
    check: time the correlation, collect the hits, append the stats. *)
Definition run_pass (L : Locals.t) (scale rotation : Q) (variant : ndarray Q)
    (st : Sweep.t) : Sweep.t :=
  let pass_name := format_pass scale rotation in
  let '(start, clock1) := perf_counter (Sweep.clock st) in
  let result := matchTemplate (Locals.search_surface L) variant in
  let '(stop, clock2) := perf_counter clock1 in
  let duration_ms := (stop - start) * 1000 in
  let best_similarity :=
    if (Np.size result =? 0)%Z then None else Np.amax result in
  let hits :=
    match best_similarity with
    | Some _ =>
      pass_hits result (float32 (Locals.min_similarity L))
                (MatchOptions.max_matches (Locals.options L))
    | None => []
    end in
  let kept_points := Z.of_nat (List.length hits) in
  let new_candidates :=
    List.map (fun xy =>
      let score := cell result (snd xy) (fst xy) in
      let box_width := Np.shape1 variant in
      let box_height := Np.shape0 variant in
      let abs_x := inject_Z (Locals.search_left L)
                   + Qnat (fst xy) / Locals.downscale_factor L in
      let abs_y := inject_Z (Locals.search_top L)
                   + Qnat (snd xy) / Locals.downscale_factor L in
      Candidate.mk abs_x abs_y
        (inject_Z box_width / Locals.downscale_factor L)
        (inject_Z box_height / Locals.downscale_factor L)
        score pass_name) hits in
  Sweep.mk (Sweep.candidates st ++ new_candidates)
           (Sweep.stats st ++
            [PassStat.mk pass_name (Np.size result) kept_points
                         duration_ms best_similarity])
           clock2.

(** One iteration of [for rotation in default_rotations]. *)
Definition rotation_body (L : Locals.t) (scale : Q) (scaled_template : ndarray Q)
    (st : Sweep.t) (rotation : Q) : Sweep.t :=
  let variant :=
    if Qeq_bool rotation 0 then scaled_template
    else rotate_template scaled_template rotation in
  if (Locals.search_height L <=? Np.shape0 variant)%Z
     || (Locals.search_width L <=? Np.shape1 variant)%Z
  then st
  else run_pass L scale rotation variant st.

(** One iteration of [for scale in default_scales]. *)
Definition scale_body (L : Locals.t) (st : Sweep.t) (scale : Q) : Sweep.t :=
  let scaled_template := resize_linear (Locals.base_template L) scale scale in
  if (Np.shape0 scaled_template <? 5)%Z || (Np.shape1 scaled_template <? 5)%Z
  then st
  else if (Locals.search_height L <=? Np.shape0 scaled_template)%Z
          || (Locals.search_width L <=? Np.shape1 scaled_template)%Z
  then st
  else fold_left (rotation_body L scale scaled_template)
                 (Locals.default_rotations L) st.

Definition sweep (L : Locals.t) (clock : Clock) : Sweep.t :=
  fold_left (scale_body L) (Locals.default_scales L) (Sweep.mk [] [] clock).

(** The [boundingBox] dict of one match. *)
Definition bounding_box (L : Locals.t) (candidate : Candidate.t) : Selection.t :=
  Selection.mk
    (clamp (Candidate.x candidate / inject_Z (Locals.width L)) 0 1)
    (clamp (Candidate.y candidate / inject_Z (Locals.height L)) 0 1)
    (clamp (Candidate.width candidate / inject_Z (Locals.width L)) 0 1)
    (clamp (Candidate.height candidate / inject_Z (Locals.height L)) 0 1).

(** From [if not candidates] to the final [return]. *)
Definition respond (L : Locals.t) (st : Sweep.t) : Response.t :=
  match Sweep.candidates st with
  | [] =>
    Response.mk [] (Sweep.stats st) None
                (Locals.selection L) (Locals.search_box L)
  | _ :: _ =>
    let filtered :=
      non_max_suppression (Sweep.candidates st)
        (MatchOptions.nms_iou (Locals.options L))
        (MatchOptions.max_matches (Locals.options L)) in
    let matches :=
      List.map (fun candidate =>
        Match.mk (Locals.template_label L)
                 (Candidate.score candidate)
                 (bounding_box L candidate)
                 (Candidate.score candidate)
                 (Candidate.pass candidate)) filtered in
    let matches := sorted_desc Match.templateSimilarity matches in
    let best_similarity :=
      match matches with
      | m :: _ => Some (Match.templateSimilarity m)
      | [] => None
      end in
    Response.mk matches (Sweep.stats st) best_similarity
                (Locals.selection L) (Locals.search_box L)
  end.

(** [match_selection(payload)]: the raised [HTTPException] or the
    returned dict, and the clock as the request leaves it. *)
Definition match_selection (payload : MatchRequest.t) (clock : Clock)
  : (HTTPException + Response.t) * Clock :=
  match prepare payload with
  | inl exc => (inl exc, clock)
  | inr L =>
    let st := sweep L clock in
    (inr (respond L st), Sweep.clock st)
  end.

(** The rotations of one scale whose variant passes every size check:
    the passes of that scale that are executed. *)
Definition scale_passes (L : Locals.t) (scale : Q) : list (Q * Q) :=
  let scaled_template := resize_linear (Locals.base_template L) scale scale in
  if (Np.shape0 scaled_template <? 5)%Z || (Np.shape1 scaled_template <? 5)%Z
  then []
  else if (Locals.search_height L <=? Np.shape0 scaled_template)%Z
          || (Locals.search_width L <=? Np.shape1 scaled_template)%Z
  then []
  else
    List.map (fun rotation => (scale, rotation))
      (filter (fun rotation =>
         let variant :=
           if Qeq_bool rotation 0 then scaled_template
           else rotate_template scaled_template rotation in
         negb ((Locals.search_height L <=? Np.shape0 variant)%Z
               || (Locals.search_width L <=? Np.shape1 variant)%Z))
         (Locals.default_rotations L)).

(** The executed passes of the whole sweep, in sweep order. *)
Definition executed_passes (L : Locals.t) : list (Q * Q) :=
  flat_map (scale_passes L) (Locals.default_scales L).

End Pipeline.

(** ** Entries of the response, as [respond] builds them *)

(** The match built from one candidate kept by the suppression. *)
Definition match_of (L : Locals.t) (candidate : Candidate.t) : Match.t :=
  Match.mk (Locals.template_label L)
           (Candidate.score candidate)
           (bounding_box L candidate)
           (Candidate.score candidate)
           (Candidate.pass candidate).

(** The candidates kept by the suppression, in its order. *)
Definition kept_candidates (L : Locals.t) (st : Sweep.t) : list Candidate.t :=
  non_max_suppression (Sweep.candidates st)
    (MatchOptions.nms_iou (Locals.options L))
    (MatchOptions.max_matches (Locals.options L)).

(** The sum of [kept] over a stats list. *)
Definition total_kept (stats : list PassStat.t) : Z :=
  fold_right (fun s acc => (PassStat.kept s + acc)%Z) 0%Z stats.

(** ** Where a candidate lies

    The box of [c] starts at or after the origin of the search region
    and ends within its extent, measured in image pixels. *)
Definition placed (L : Locals.t) (c : Candidate.t) : Prop :=
  (0 < Locals.search_width L)%Z /\ (0 < Locals.search_height L)%Z /\
  inject_Z (Locals.search_left L) <= Candidate.x c /\
  inject_Z (Locals.search_top L) <= Candidate.y c /\
  0 <= Candidate.width c /\ 0 <= Candidate.height c /\
  Candidate.x c + Candidate.width c
  <= inject_Z (Locals.search_left L)
     + inject_Z (Locals.search_width L) / Locals.downscale_factor L /\
  Candidate.y c + Candidate.height c
  <= inject_Z (Locals.search_top L)
     + inject_Z (Locals.search_height L) / Locals.downscale_factor L.

(** ** A response without its timings *)

Definition erase_duration (s : PassStat.t) : PassStat.t :=
  PassStat.mk (PassStat.pass s) (PassStat.candidates s) (PassStat.kept s)
              0 (PassStat.bestSimilarity s).

Definition erase_durations (r : HTTPException + Response.t)
  : HTTPException + Response.t :=
  match r with
  | inl exc => inl exc
  | inr resp =>
    inr (Response.mk (Response.matches resp)
                     (List.map erase_duration (Response.stats resp))
                     (Response.bestSimilarity resp)
                     (Response.selection resp)
                     (Response.searchRegion resp))
  end.

(** ** A stand-in for the collaborators, for concrete runs

    [Stub.externals img score] decodes every non-empty payload to [img],
    resamples by nearest neighbour, rotates by quarter turns only, and
    answers every correlation with the map [score] cut to the shape
    OpenCV gives it. *)
Module Stub.

Definition resample {A} (src : ndarray A) (rows cols : nat) : ndarray A :=
  mkarray rows cols
    (fun r c => cell src (r * nrows src / rows) (c * ncols src / cols)).

(** Cosine and sine of [angle] degrees, rounded to a quarter turn. *)
Definition cos_sin (angle : Q) : Q * Q :=
  match (Py.round (angle / 90) mod 4)%Z with
  | 0%Z => (1, 0)
  | 1%Z => (0, 1)
  | 2%Z => (-1 # 1, 0)
  | _ => (0, -1 # 1)
  end.

(** [floor(log2 q)] for a positive [q]. *)
Definition ilog2 (q : Q) : Z :=
  let k := (Z.log2 (Qnum q) - Z.log2 (Zpos (Qden q)))%Z in
  if Qle_bool (2 ^ k) q then k else (k - 1)%Z.

(** The nearest number with a significand of [precision] bits, ties to
    even; the exponent is not bounded. *)
Definition round_binary (precision : Z) (q : Q) : Q :=
  if Qeq_bool q 0 then 0
  else
    let e := (ilog2 (Qabs q) - (precision - 1))%Z in
    inject_Z (Py.round (q / 2 ^ e)) * 2 ^ e.

Definition externals (img : ndarray bgr) (score : nat -> nat -> Q) : Externals :=
  {| decode_image_data data :=
       match data with
       | EmptyString => inl "No image data supplied"%string
       | _ => inr img
       end;
     bgr2gray p := snd (fst p);
     resize_area src width height :=
       resample src (Z.to_nat height) (Z.to_nat width);
     resize_linear src fx fy :=
       resample src
         (Z.to_nat (Py.round (inject_Z (Np.shape0 src) * fy)))
         (Z.to_nat (Py.round (inject_Z (Np.shape1 src) * fx)));
     getRotationMatrix2D center angle scale :=
       let '(c, s) := cos_sin angle in
       mkAffine c s ((1 - c) * fst center - s * snd center)
                (- s) c (s * fst center + (1 - c) * snd center);
     warpAffine src matrix dsize :=
       resample src (Z.to_nat (snd dsize)) (Z.to_nat (fst dsize));
     GaussianBlur src ksize sigma := src;
     Canny src low high :=
       Np.map (fun v => if (high <? v)%Z then 255%Z else 0%Z) src;
     normalize_minmax src alpha beta := src;
     matchTemplate image templ :=
       mkarray (nrows image - nrows templ + 1) (ncols image - ncols templ + 1)
               score;
     format_pass scale rotation := "scale_rot"%string;
     float32 value := round_binary 24 value
  |}.

(** A uniform grey image of the given size. *)
Definition grey (rows cols : nat) : ndarray bgr :=
  mkarray rows cols (fun _ _ => (128, 128, 128)%Z).

(** A uniform single-channel patch of the given size. *)
Definition patch (rows cols : nat) : ndarray Z :=
  mkarray rows cols (fun _ _ => 128%Z).

(** A correlation map with the value 1 in one cell and 0 elsewhere. *)
Definition peak (row col : nat) : nat -> nat -> Q :=
  fun r c => if Nat.eqb r row && Nat.eqb c col then 1 else 0.

(** The collaborators over a 1000x1000 image whose correlation maps are
    0 everywhere. *)
Definition plain : Externals :=
  externals (grey 1000 1000) (fun _ _ => 0).

(** Clocks that advance by [step] seconds per call. *)
Definition ticking (step : Q) : Clock :=
  mkClock (fun n => Qnat n * step) 0.

(** The locals [prepare] hands to the sweep; the second branch is only
    there to make the function total. *)
Definition locals_of {E : Externals} (payload : MatchRequest.t) : Locals.t :=
  match prepare payload with
  | inr L => L
  | inl _ =>
    Locals.mk 0 0 (MatchRequest.coordinates payload) MatchOptions.default
              EmptyString 0 (MatchRequest.coordinates payload) 0 0 1
              (mkarray 0 0 (fun _ _ => 0)) (mkarray 0 0 (fun _ _ => 0))
              0 0 [] []
  end.

(** The response of a request; the second branch is only there to make
    the function total. *)
Definition response_of {E : Externals} (payload : MatchRequest.t)
    (clock : Clock) : Response.t :=
  match fst (match_selection payload clock) with
  | inr resp => resp
  | inl _ =>
    Response.mk [] [] None (MatchRequest.coordinates payload)
                (MatchRequest.coordinates payload)
  end.

(** A 21x21 correlation map whose values grow along the rows. *)
Definition ramp : ndarray Q :=
  mkarray 21 21 (fun r c => Qnat (r * 21 + c) / 441).

End Stub.

(** ** Sample requests *)

(** A 40x40 image on which nothing correlates. *)
Definition blank40 : Externals :=
  Stub.externals (Stub.grey 40 40) (fun _ _ => 0).

(** A 20x20 image whose correlation maps peak at row 5, column 5. *)
Definition peaked20 : Externals :=
  Stub.externals (Stub.grey 20 20) (Stub.peak 5 5).


(** An image without rows or columns. *)
Definition empty_image : Externals :=
  Stub.externals (Stub.grey 0 0) (fun _ _ => 0).

(** The central quarter of the image, default options. *)
Definition centre_request : MatchRequest.t :=
  MatchRequest.mk "data:image/png;base64,AAAA"
                  (Selection.mk (1 # 4) (1 # 4) (1 # 2) (1 # 2)) None.

(** A 3x3-pixel selection of a 1000x1000 image. *)
Definition tiny_request : MatchRequest.t :=
  MatchRequest.mk "data:image/png;base64,AAAA"
                  (Selection.mk (1 # 10) (1 # 10) (3 # 1000) (3 # 1000)) None.

(** The central quarter, with both sweep lists given as empty lists. *)
Definition empty_lists_options : MatchOptions.t :=
  MatchOptions.mk "auto" (6 # 10) 80 (35 # 100) (Some []) (Some []) None None.

Definition empty_lists_request : MatchRequest.t :=
  MatchRequest.mk "data:image/png;base64,AAAA"
                  (Selection.mk (1 # 4) (1 # 4) (1 # 2) (1 # 2))
                  (Some empty_lists_options).

(** A 5x5 image on which nothing correlates. *)
Definition small5 : Externals :=
  Stub.externals (Stub.grey 5 5) (fun _ _ => 0).

(** The whole image as selection, with both sweep lists given as empty
    lists. *)
Definition whole_image_request : MatchRequest.t :=
  MatchRequest.mk "data:image/png;base64,AAAA"
                  (Selection.mk 0 0 1 1) (Some empty_lists_options).



(** * Properties *)

(** ** Python numerics *)

Module PyFacts.
Import Py.

Lemma ltb_lt a b : ltb a b = true <-> a < b.
Proof.
  unfold ltb. rewrite negb_true_iff.
  destruct (Qle_bool b a) eqn:E.
  - apply Qle_bool_iff in E. split; [discriminate | intro H; exfalso; lra].
  - split; [intros _ | reflexivity].
    destruct (Qlt_le_dec a b) as [L | L]; [exact L |].
    apply Qle_bool_iff in L. congruence.
Qed.

Lemma ltb_ge a b : ltb a b = false <-> b <= a.
Proof.
  unfold ltb. rewrite negb_false_iff. apply Qle_bool_iff.
Qed.

Lemma leb_le a b : leb a b = true <-> a <= b.
Proof. apply Qle_bool_iff. Qed.

Lemma leb_gt a b : leb a b = false <-> b < a.
Proof.
  unfold leb. destruct (Qle_bool a b) eqn:E.
  - apply Qle_bool_iff in E. split; [discriminate | intro; exfalso; lra].
  - split; [intros _ | reflexivity].
    destruct (Qlt_le_dec b a) as [L | L]; [exact L |].
    apply Qle_bool_iff in L. congruence.
Qed.

Lemma max_spec a b : (a < b /\ max a b = b) \/ (b <= a /\ max a b = a).
Proof.
  unfold max. destruct (ltb a b) eqn:E.
  - left. split; [now apply ltb_lt | reflexivity].
  - right. split; [now apply ltb_ge | reflexivity].
Qed.

Lemma min_spec a b : (b < a /\ min a b = b) \/ (a <= b /\ min a b = a).
Proof.
  unfold min. destruct (ltb b a) eqn:E.
  - left. split; [now apply ltb_lt | reflexivity].
  - right. split; [now apply ltb_ge | reflexivity].
Qed.

#[global] Instance ltb_compat : Proper (Qeq ==> Qeq ==> eq) ltb.
Proof.
  intros a a' Ha b b' Hb.
  destruct (ltb a b) eqn:E; symmetry.
  - apply ltb_lt. apply ltb_lt in E. lra.
  - apply ltb_ge. apply ltb_ge in E. lra.
Qed.

#[global] Instance max_compat : Proper (Qeq ==> Qeq ==> Qeq) max.
Proof.
  intros a a' Ha b b' Hb.
  destruct (max_spec a b) as [[? ->] | [? ->]],
           (max_spec a' b') as [[? ->] | [? ->]]; lra.
Qed.

#[global] Instance min_compat : Proper (Qeq ==> Qeq ==> Qeq) min.
Proof.
  intros a a' Ha b b' Hb.
  destruct (min_spec a b) as [[? ->] | [? ->]],
           (min_spec a' b') as [[? ->] | [? ->]]; lra.
Qed.



(** [round] never decreases when its argument grows. *)
Lemma round_mono a b : a <= b -> (round a <= round b)%Z.
Proof.
  intro Hab. unfold round.
  pose proof (Qfloor_le (a + (1 # 2))) as Ha.
  assert (Hn : (Qfloor (a + (1 # 2)) <= Qfloor (b + (1 # 2)))%Z)
    by (apply Qfloor_resp_le; lra).
  revert Ha Hn.
  generalize (Qfloor (a + (1 # 2))) (Qfloor (b + (1 # 2))).
  intros na nb Ha Hn.
  destruct (Qeq_bool (inject_Z nb) (b + (1 # 2))) eqn:Eb; simpl.
  - apply Qeq_bool_iff in Eb.
    destruct (Z.eq_dec na nb) as [Heq | Hne].
    + subst na.
      assert (Ea : inject_Z nb == a + (1 # 2)) by lra.
      apply Qeq_bool_iff in Ea. rewrite Ea. simpl.
      destruct (Z.odd nb); lia.
    + destruct (Qeq_bool (inject_Z na) (a + (1 # 2)) && Z.odd na),
               (Z.odd nb); lia.
  - destruct (Qeq_bool (inject_Z na) (a + (1 # 2)) && Z.odd na); lia.
Qed.

End PyFacts.

(** Case analysis on every [Py.min] and [Py.max] in sight. *)
Ltac py_minmax :=
  repeat match goal with
  | |- context [Py.min ?a ?b] =>
    let H := fresh "Hmin" in let E := fresh "Emin" in
    destruct (PyFacts.min_spec a b) as [[H E] | [H E]];
    rewrite !E in *; clear E
  | |- context [Py.max ?a ?b] =>
    let H := fresh "Hmax" in let E := fresh "Emax" in
    destruct (PyFacts.max_spec a b) as [[H E] | [H E]];
    rewrite !E in *; clear E
  | _ : context [Py.min ?a ?b] |- _ =>
    let H := fresh "Hmin" in let E := fresh "Emin" in
    destruct (PyFacts.min_spec a b) as [[H E] | [H E]];
    rewrite !E in *; clear E
  | _ : context [Py.max ?a ?b] |- _ =>
    let H := fresh "Hmax" in let E := fresh "Emax" in
    destruct (PyFacts.max_spec a b) as [[H E] | [H E]];
    rewrite !E in *; clear E
  end.

(** ** [clamp] *)

Lemma clamp_cases v lo hi :
  lo <= hi ->
  (v <= lo /\ clamp v lo hi == lo) \/
  (lo <= v <= hi /\ clamp v lo hi == v) \/
  (hi <= v /\ clamp v lo hi == hi).
Proof.
  intro H. unfold clamp. py_minmax.
  - right; left. split; [lra | reflexivity].
  - left. split; [lra | reflexivity].
  - right; right. split; [lra | reflexivity].
  - right; right. split; lra.
Qed.

Lemma clamp_bounds v lo hi : lo <= hi -> lo <= clamp v lo hi <= hi.
Proof.
  intro H. destruct (clamp_cases v lo hi H) as [[? E] | [[? E] | [? E]]];
    rewrite E; lra.
Qed.

(** The lower bound wins when the bounds cross, as in Python. *)
Lemma clamp_lower v lo hi : lo <= clamp v lo hi.
Proof. unfold clamp. py_minmax; lra. Qed.

Lemma clamp_mono v1 v2 lo hi : v1 <= v2 -> clamp v1 lo hi <= clamp v2 lo hi.
Proof. intro H. unfold clamp. py_minmax; lra. Qed.

#[global] Instance clamp_compat : Proper (Qeq ==> Qeq ==> Qeq ==> Qeq) clamp.
Proof. intros a a' Ha b b' Hb c c' Hc. unfold clamp. now rewrite Ha, Hb, Hc. Qed.

(** ** CoordinateMapper *)

Lemma inject_Z_nonneg z : (0 <= z)%Z -> 0 <= inject_Z z.
Proof. intro H. change 0 with (inject_Z 0). now rewrite <- Zle_Qle. Qed.

Lemma scaled_edge_mono (x w1 w2 : Q) (n : Z) :
  (0 <= n)%Z -> w1 <= w2 ->
  (Py.round ((x + w1) * inject_Z n) <= Py.round ((x + w2) * inject_Z n))%Z.
Proof.
  intros Hn Hw. apply PyFacts.round_mono.
  pose proof (inject_Z_nonneg n Hn). nra.
Qed.

(** C7: with [x], [y] and the image size fixed, a larger normalized
    width never gives a smaller [right - left], and a larger normalized
    height never gives a smaller [bottom - top]. *)
Theorem normalized_to_pixels_monotone
    (x y w1 w2 h1 h2 : Q) (width height : Z) :
  (0 <= width)%Z -> (0 <= height)%Z -> w1 <= w2 -> h1 <= h2 ->
  let '(left1, top1, right1, bottom1) :=
    normalized_to_pixels (Selection.mk x y w1 h1) width height in
  let '(left2, top2, right2, bottom2) :=
    normalized_to_pixels (Selection.mk x y w2 h2) width height in
  (right1 - left1 <= right2 - left2)%Z /\
  (bottom1 - top1 <= bottom2 - top2)%Z.
Proof.
  intros Hw Hh Hw12 Hh12. unfold normalized_to_pixels. simpl.
  split; apply Z.sub_le_mono_r; apply scaled_edge_mono;
    auto using clamp_mono.
Qed.

Lemma normalized_to_pixels_monotone_witness :
  let '(left1, top1, right1, bottom1) :=
    normalized_to_pixels (Selection.mk (1 # 10) (2 # 10) (3 # 10) (1 # 10))
                         1000 800 in
  let '(left2, top2, right2, bottom2) :=
    normalized_to_pixels (Selection.mk (1 # 10) (2 # 10) (5 # 10) (4 # 10))
                         1000 800 in
  (right1 - left1 <= right2 - left2)%Z /\
  (bottom1 - top1 <= bottom2 - top2)%Z.
Proof.
  apply (normalized_to_pixels_monotone
           (1 # 10) (2 # 10) (3 # 10) (5 # 10) (1 # 10) (4 # 10) 1000 800);
    [lia | lia | lra | lra].
Defined.

(** ** Intersection over union *)

#[global] Instance leb_compat : Proper (Qeq ==> Qeq ==> eq) Py.leb.
Proof.
  intros a a' Ha b b' Hb.
  destruct (Py.leb a b) eqn:E; symmetry.
  - apply PyFacts.leb_le. apply PyFacts.leb_le in E. lra.
  - apply PyFacts.leb_gt. apply PyFacts.leb_gt in E. lra.
Qed.


(** ** The stable descending sort *)

Section Sorting.
Context {A : Type} (key : A -> Q).

Lemma insert_desc_Forall (P : A -> Prop) a l :
  P a -> Forall P l -> Forall P (insert_desc key a l).
Proof.
  intros Ha Hl. induction Hl as [| b l Hb Hl IH]; simpl.
  - auto.
  - destruct (Py.ltb (key a) (key b)); auto.
Qed.

Lemma insert_desc_sorted a l :
  StronglySorted (desc key) l -> StronglySorted (desc key) (insert_desc key a l).
Proof.
  induction 1 as [| b l Hs IH Hb]; simpl.
  - repeat constructor.
  - destruct (Py.ltb (key a) (key b)) eqn:E.
    + apply PyFacts.ltb_lt in E. constructor; [exact IH |].
      apply insert_desc_Forall; [unfold desc; lra | exact Hb].
    + apply PyFacts.ltb_ge in E. constructor.
      * constructor; assumption.
      * constructor; [exact E |].
        eapply Forall_impl; [| exact Hb].
        unfold desc. intros c Hc. lra.
Qed.

Lemma sorted_desc_sorted l : StronglySorted (desc key) (sorted_desc key l).
Proof.
  induction l as [| a l IH]; [constructor |].
  change (sorted_desc key (a :: l)) with (insert_desc key a (sorted_desc key l)).
  now apply insert_desc_sorted.
Qed.

(** Sorting a descending list changes nothing. *)
Lemma sorted_desc_fixpoint l :
  StronglySorted (desc key) l -> sorted_desc key l = l.
Proof.
  induction 1 as [| a l Hs IH Ha]; [reflexivity |].
  change (sorted_desc key (a :: l)) with (insert_desc key a (sorted_desc key l)).
  rewrite IH.
  destruct Ha as [| b l Hab _]; simpl; [reflexivity |].
  now rewrite (proj2 (PyFacts.ltb_ge (key a) (key b)) Hab).
Qed.

Lemma sorted_desc_length l : List.length (sorted_desc key l) = List.length l.
Proof.
  induction l as [| a l IH]; [reflexivity |].
  change (sorted_desc key (a :: l)) with (insert_desc key a (sorted_desc key l)).
  simpl. rewrite <- IH. generalize (sorted_desc key l). intro m.
  induction m as [| b m IHm]; simpl; [reflexivity |].
  destruct (Py.ltb (key a) (key b)); simpl; congruence.
Qed.

Lemma sorted_desc_Forall (P : A -> Prop) l :
  Forall P l -> Forall P (sorted_desc key l).
Proof.
  induction 1 as [| a l Ha Hl IH]; [constructor |].
  change (sorted_desc key (a :: l)) with (insert_desc key a (sorted_desc key l)).
  now apply insert_desc_Forall.
Qed.

End Sorting.

(** ** Greedy non-max suppression *)

Section Nms.
Variable iou_threshold : Q.

(** [c] survives the filter that follows the pick of [p]. *)
Let survives (p c : Candidate.t) : Prop :=
  Py.leb (intersection_over_union c p) iou_threshold = true.

Let keep (p : Candidate.t) : Candidate.t -> bool :=
  fun candidate =>
    Py.leb (intersection_over_union candidate p) iou_threshold.

Lemma nms_pick_nil k : nms_pick iou_threshold k [] = [].
Proof. now destruct k. Qed.

(** The loop with its accumulator computes [picked ++ nms_pick ...],
    given the fuel [non_max_suppression] hands it. *)
Lemma nms_while_pick (max_detections : Z) fuel :
  forall boxes picked,
    (List.length boxes <= fuel)%nat ->
    nms_while fuel iou_threshold max_detections boxes picked
    = picked ++
      nms_pick iou_threshold
        (Z.to_nat (max_detections - Z.of_nat (List.length picked))) boxes.
Proof.
  induction fuel as [| fuel IH]; intros boxes picked Hlen.
  - destruct boxes; [| simpl in Hlen; lia].
    simpl. now rewrite nms_pick_nil, app_nil_r.
  - destruct boxes as [| current rest]; simpl.
    + now rewrite nms_pick_nil, app_nil_r.
    + destruct (Z.ltb_spec (Z.of_nat (List.length picked)) max_detections)
        as [Hlt | Hge].
      * rewrite IH.
        2:{ simpl in Hlen.
            pose proof (filter_length_le (keep current) rest).
            unfold keep in *. lia. }
        rewrite <- app_assoc. simpl. f_equal.
        rewrite length_app. simpl.
        replace (Z.to_nat (max_detections - Z.of_nat (List.length picked)))
          with (S (Z.to_nat (max_detections
                             - Z.of_nat (List.length picked + 1)))) by lia.
        reflexivity.
      * replace (Z.to_nat (max_detections - Z.of_nat (List.length picked)))
          with O by lia.
        simpl. now rewrite app_nil_r.
Qed.

Lemma non_max_suppression_pick boxes max_detections :
  non_max_suppression boxes iou_threshold max_detections
  = match boxes with
    | [] => []
    | _ => nms_pick iou_threshold (Z.to_nat max_detections)
                    (sorted_desc Candidate.score boxes)
    end.
Proof.
  unfold non_max_suppression. destruct boxes as [| b boxes]; [reflexivity |].
  rewrite nms_while_pick by lia. simpl List.length.
  now rewrite Z.sub_0_r.
Qed.

Lemma nms_pick_Forall (P : Candidate.t -> Prop) k :
  forall boxes, Forall P boxes -> Forall P (nms_pick iou_threshold k boxes).
Proof.
  induction k as [| k IH]; intros boxes H; [constructor |].
  destruct H as [| current rest Hc Hr]; simpl; [constructor |].
  constructor; [exact Hc |].
  apply IH. rewrite Forall_forall in *.
  intros c Hin. apply filter_In in Hin. now apply Hr.
Qed.

Lemma nms_pick_length k :
  forall boxes, (List.length (nms_pick iou_threshold k boxes) <= k)%nat.
Proof.
  induction k as [| k IH]; intros [| current rest]; simpl; try lia.
  specialize (IH (filter (keep current) rest)). unfold keep in IH. lia.
Qed.

Lemma nms_pick_length_input k :
  forall boxes,
    (List.length (nms_pick iou_threshold k boxes) <= List.length boxes)%nat.
Proof.
  induction k as [| k IH]; intros [| current rest]; simpl; try lia.
  specialize (IH (filter (keep current) rest)).
  pose proof (filter_length_le (keep current) rest).
  unfold keep in *. lia.
Qed.

(** The picks are taken in order, so a descending input gives a
    descending output. *)
Lemma nms_pick_sorted k :
  forall boxes,
    StronglySorted (desc Candidate.score) boxes ->
    StronglySorted (desc Candidate.score) (nms_pick iou_threshold k boxes).
Proof.
  induction k as [| k IH]; intros boxes H; [constructor |].
  destruct H as [| current rest Hs Hc]; simpl; [constructor |].
  assert (Hf : StronglySorted (desc Candidate.score)
                 (filter (keep current) rest)).
  { clear Hc. induction Hs as [| b l Hs IHs Hb]; simpl; [constructor |].
    destruct (keep current b); [| exact IHs].
    constructor; [exact IHs |].
    rewrite Forall_forall in *. intros c Hin.
    apply filter_In in Hin. now apply Hb. }
  constructor.
  - now apply IH.
  - apply nms_pick_Forall. rewrite Forall_forall in *.
    intros c Hin. apply filter_In in Hin. now apply Hc.
Qed.

(** Every pick survived the filters of the picks before it. *)
Lemma nms_pick_survivors k :
  forall boxes, ForallOrdPairs survives (nms_pick iou_threshold k boxes).
Proof.
  induction k as [| k IH]; intros boxes; [constructor |].
  destruct boxes as [| current rest]; simpl; [constructor |].
  constructor; [| apply IH].
  apply nms_pick_Forall. rewrite Forall_forall.
  intros c Hin. apply filter_In in Hin. exact (proj2 Hin).
Qed.

(** A list of mutual survivors that fits the limit is picked whole. *)
Lemma nms_pick_fixpoint boxes :
  forall k, ForallOrdPairs survives boxes ->
            (List.length boxes <= k)%nat ->
            nms_pick iou_threshold k boxes = boxes.
Proof.
  induction boxes as [| current rest IH]; intros k Hp Hlen.
  - apply nms_pick_nil.
  - destruct k as [| k]; [simpl in Hlen; lia |].
    inversion Hp as [| ? ? Hc Hr]; subst. simpl.
    assert (Hf : filter (keep current) rest = rest).
    { clear - Hc. induction Hc as [| c l Hc Hl IHl]; simpl; [reflexivity |].
      unfold keep at 1. unfold survives in Hc. rewrite Hc.
      now rewrite IHl. }
    unfold keep in Hf. rewrite Hf. f_equal.
    apply IH; [exact Hr | simpl in Hlen; lia].
Qed.

(** C3: running [non_max_suppression] on its own output, with the same
    threshold and the same limit, returns that output. *)
Theorem non_max_suppression_idempotent
    (boxes : list Candidate.t) (max_detections : Z) :
  non_max_suppression
    (non_max_suppression boxes iou_threshold max_detections)
    iou_threshold max_detections
  = non_max_suppression boxes iou_threshold max_detections.
Proof.
  rewrite (non_max_suppression_pick boxes).
  destruct boxes as [| b boxes]; [reflexivity |].
  set (sorted := sorted_desc Candidate.score (b :: boxes)).
  set (out := nms_pick iou_threshold (Z.to_nat max_detections) sorted).
  rewrite non_max_suppression_pick.
  assert (Hs : StronglySorted (desc Candidate.score) out)
    by (apply nms_pick_sorted, sorted_desc_sorted).
  rewrite (sorted_desc_fixpoint _ _ Hs).
  rewrite nms_pick_fixpoint;
    [now destruct out | apply nms_pick_survivors | apply nms_pick_length].
Qed.

End Nms.

(** ** ScaleGuard *)

Lemma min_dimension_ratio (n : Z) :
  (MIN_TEMPLATE_DIMENSION <= n)%Z ->
  inject_Z MIN_TEMPLATE_DIMENSION / inject_Z n <= 1.
Proof.
  unfold MIN_TEMPLATE_DIMENSION. intro H.
  assert (Hn : inject_Z 5 <= inject_Z n) by now rewrite <- Zle_Qle.
  assert (H5 : inject_Z 5 == 5) by reflexivity.
  apply Qle_shift_div_r; lra.
Qed.

(** C5, as claimed, fails for a template below the minimum size: for a
    3x3 template in a 3200x3200 search patch the bound is 5/3, and the
    factor returned is 1. *)
Lemma maybe_downscale_search_small_template :
  let factor :=
    snd (@maybe_downscale_search Stub.plain
           (Stub.patch 3200 3200) (Stub.patch 3 3)) in
  factor == 1 /\
  Py.max (inject_Z 5 / inject_Z (Z.min 3 3)) (5 # 100) == 5 # 3 /\
  ~ Py.max (inject_Z 5 / inject_Z (Z.min 3 3)) (5 # 100) <= factor.
Proof.
  cbv zeta. split; [reflexivity | split; [reflexivity |]].
  intro H. vm_compute in H. apply H. reflexivity.
Qed.

(** C5 (amended): for every search patch and every template patch whose
    two dimensions are at least [MIN_TEMPLATE_DIMENSION], the factor
    returned by [maybe_downscale_search] is at least
    [max(5 / template_min_dim, 0.05)] and at most 1. *)
Theorem maybe_downscale_search_factor_bounds
    {E : Externals} (search_patch template_patch : ndarray Z) :
  (MIN_TEMPLATE_DIMENSION <= Np.shape0 template_patch)%Z ->
  (MIN_TEMPLATE_DIMENSION <= Np.shape1 template_patch)%Z ->
  let template_min_dim :=
    Z.min (Np.shape0 template_patch) (Np.shape1 template_patch) in
  let factor := snd (maybe_downscale_search search_patch template_patch) in
  Py.max (inject_Z MIN_TEMPLATE_DIMENSION / inject_Z template_min_dim) (5 # 100)
  <= factor /\ factor <= 1.
Proof.
  intros H0 H1 tmin factor. subst factor.
  assert (Hmin : (MIN_TEMPLATE_DIMENSION <= tmin)%Z) by (subst tmin; lia).
  pose proof (min_dimension_ratio tmin Hmin) as Hratio.
  unfold maybe_downscale_search.
  replace (Z.max 1 (Z.min (Np.shape0 template_patch)
                          (Np.shape1 template_patch)))
    with tmin by (unfold MIN_TEMPLATE_DIMENSION in Hmin; subst tmin; lia).
  destruct (Z.max (Np.shape0 search_patch) (Np.shape1 search_patch)
            <=? MAX_GLOBAL_SEARCH_DIMENSION)%Z.
  - simpl. py_minmax; lra.
  - match goal with
    | |- context [Py.leb (999 # 1000) ?f] => destruct (Py.leb (999 # 1000) f)
    end; simpl; py_minmax; lra.
Qed.

Lemma maybe_downscale_search_factor_bounds_witness :
  let factor :=
    snd (@maybe_downscale_search Stub.plain
           (Stub.patch 2000 3200) (Stub.patch 40 60)) in
  Py.max (inject_Z MIN_TEMPLATE_DIMENSION / inject_Z (Z.min 40 60)) (5 # 100)
  <= factor /\ factor <= 1.
Proof.
  apply (@maybe_downscale_search_factor_bounds Stub.plain
           (Stub.patch 2000 3200) (Stub.patch 40 60));
    vm_compute; discriminate.
Defined.

(** ** Rejections of [match_selection] *)

Section Handler.
Context {E : Externals}.

(** X26: Once the image is decoded, an image without area is rejected
    with status 400; and when [search_padding] is unset, so that
    [expand_box] is not called, a selection whose pixel patch is less
    than 5 pixels high or wide is rejected with status 400 as well.  In
    both cases the clock is not read, so no pass has run. *)
Theorem degenerate_geometry_rejected
    (payload : MatchRequest.t) (clock : Clock) (image_bgr : ndarray bgr) :
  decode_image_data (MatchRequest.image payload) = inr image_bgr ->
  let height := Np.shape0 image_bgr in
  let width := Np.shape1 image_bgr in
  (width = 0%Z \/ height = 0%Z ->
   match_selection payload clock
   = (inl (mkHTTPException 400 "Invalid image dimensions"), clock)) /\
  (width <> 0%Z -> height <> 0%Z ->
   MatchOptions.search_padding (resolved_options payload) = None ->
   let '(sel_left, sel_top, sel_right, sel_bottom) :=
     normalized_to_pixels (MatchRequest.coordinates payload) width height in
   let template_patch :=
     Np.slice2 (to_grayscale image_bgr) sel_top sel_bottom sel_left sel_right in
   (Np.shape0 template_patch < 5)%Z \/ (Np.shape1 template_patch < 5)%Z ->
   match_selection payload clock
   = (inl (mkHTTPException 400 "Selection too small for template matching"),
      clock)).
Proof.
  intros Hdec height width. unfold match_selection, prepare.
  rewrite Hdec. fold height width. split.
  - intros Hz.
    assert (Hc : ((width =? 0)%Z || (height =? 0)%Z) = true).
    { apply orb_true_iff. destruct Hz as [Hz | Hz]; [left | right];
        now apply Z.eqb_eq. }
    now rewrite Hc.
  - intros Hw Hh _.
    assert (Hc : ((width =? 0)%Z || (height =? 0)%Z) = false).
    { apply orb_false_iff. split; now apply Z.eqb_neq. }
    rewrite Hc.
    destruct (normalized_to_pixels (MatchRequest.coordinates payload)
                width height) as [[[sel_left sel_top] sel_right] sel_bottom].
    match goal with
    | |- context [normalized_to_pixels ?b width height] =>
      destruct (normalized_to_pixels b width height)
        as [[[search_left search_top] search_right] search_bottom]
    end.
    intros Hsmall.
    match goal with
    | |- context [if ?c then inl _ else _] =>
      assert (Hs : c = true)
    end.
    { apply orb_true_iff. destruct Hsmall as [Hs | Hs]; [left | right];
        now apply Z.ltb_lt. }
    now rewrite Hs.
Qed.

End Handler.

(** ** What [prepare] establishes *)

Section Prepared.
Context {E : Externals}.

Lemma round_nonneg q : 0 <= q -> (0 <= Py.round q)%Z.
Proof. intro H. exact (PyFacts.round_mono 0 q H). Qed.

Lemma prepare_inv (payload : MatchRequest.t) (L : Locals.t) :
  prepare payload = inr L ->
  exists image_bgr search_right search_bottom,
    decode_image_data (MatchRequest.image payload) = inr image_bgr /\
    Locals.width L = Np.shape1 image_bgr /\
    Locals.height L = Np.shape0 image_bgr /\
    Locals.width L <> 0%Z /\ Locals.height L <> 0%Z /\
    Locals.selection L = MatchRequest.coordinates payload /\
    Locals.options L = resolved_options payload /\
    Locals.search_box L = resolved_search_box payload /\
    normalized_to_pixels (Locals.search_box L) (Locals.width L) (Locals.height L)
    = (Locals.search_left L, Locals.search_top L, search_right, search_bottom) /\
    Locals.search_height L = Np.shape0 (Locals.search_surface L) /\
    Locals.search_width L = Np.shape1 (Locals.search_surface L) /\
    0 < Locals.downscale_factor L /\
    (Locals.downscale_factor L == 1 ->
     Locals.search_surface L
     = to_unit_float
         (Np.slice2 (to_grayscale image_bgr) (Locals.search_top L) search_bottom
                    (Locals.search_left L) search_right)) /\
    Locals.default_scales L
    = list_or (MatchOptions.scales (Locals.options L))
              [65 # 100; 85 # 100; 1; 12 # 10; 145 # 100] /\
    Locals.default_rotations L
    = list_or (MatchOptions.rotations (Locals.options L)) [0].
Proof.
  unfold prepare. intro H.
  destruct (decode_image_data (MatchRequest.image payload))
    as [exc | image_bgr]; [discriminate H |].
  destruct ((Np.shape1 image_bgr =? 0)%Z || (Np.shape0 image_bgr =? 0)%Z)
    eqn:Hdim; [discriminate H |].
  apply orb_false_iff in Hdim. destruct Hdim as [Hw Hh].
  apply Z.eqb_neq in Hw, Hh.
  destruct (normalized_to_pixels (MatchRequest.coordinates payload) _ _)
    as [[[sel_left sel_top] sel_right] sel_bottom].
  fold (resolved_options payload) in H.
  fold (resolved_search_box payload) in H.
  destruct (normalized_to_pixels (resolved_search_box payload) _ _)
    as [[[search_left search_top] search_right] search_bottom] eqn:Hsearch.
  match type of H with
  | (if ?c then _ else _) = _ => destruct c; [discriminate H |]
  end.
  destruct (maybe_downscale_search _ _)
    as [[search_patch_proc template_patch_proc] factor] eqn:Hscale.
  injection H as <-. cbn [Locals.width Locals.height Locals.selection
    Locals.options Locals.search_box Locals.search_left Locals.search_top
    Locals.search_height Locals.search_width Locals.search_surface
    Locals.downscale_factor Locals.default_scales Locals.default_rotations].
  exists image_bgr, search_right, search_bottom.
  repeat (split; [first [reflexivity | assumption] |]).
  split; [| split; [| split; reflexivity]].
  - py_minmax; lra.
  - intro Hone.
    unfold maybe_downscale_search in Hscale.
    destruct (_ <=? MAX_GLOBAL_SEARCH_DIMENSION)%Z in Hscale.
    + now injection Hscale as <- _ _.
    + match type of Hscale with
      | context [Py.leb (999 # 1000) ?f] =>
        destruct (Py.leb (999 # 1000) f) eqn:Hf
      end.
      * now injection Hscale as <- _ _.
      * exfalso. apply PyFacts.leb_gt in Hf.
        injection Hscale as _ _ Hfactor. subst factor.
        revert Hone. py_minmax; lra.
Qed.

End Prepared.

(** ** The sweep *)

Section SweepFacts.
Context {E : Externals}.
Variable L : Locals.t.

(** The label under which the pass [(scale, rotation)] is recorded. *)
Let label_of (sr : Q * Q) : string := format_pass (fst sr) (snd sr).

(** The size check of the inner loop, as [executed_passes] applies it. *)
Let fits (scaled_template : ndarray Q) (rotation : Q) : bool :=
  let variant :=
    if Qeq_bool rotation 0 then scaled_template
    else rotate_template scaled_template rotation in
  negb ((Locals.search_height L <=? Np.shape0 variant)%Z
        || (Locals.search_width L <=? Np.shape1 variant)%Z).

Lemma run_pass_labels scale rotation variant st :
  List.map PassStat.pass (Sweep.stats (run_pass L scale rotation variant st))
  = List.map PassStat.pass (Sweep.stats st) ++ [format_pass scale rotation].
Proof.
  unfold run_pass, perf_counter. cbn [Sweep.stats].
  now rewrite map_app.
Qed.

Lemma rotation_fold_labels scale scaled_template rotations :
  forall st,
    List.map PassStat.pass
      (Sweep.stats (fold_left (rotation_body L scale scaled_template)
                              rotations st))
    = List.map PassStat.pass (Sweep.stats st)
      ++ List.map label_of
           (List.map (fun rotation => (scale, rotation))
                     (filter (fits scaled_template) rotations)).
Proof.
  induction rotations as [| rotation rotations IH]; intro st;
    cbn [fold_left filter].
  - cbn. now rewrite app_nil_r.
  - rewrite IH. unfold rotation_body.
    replace (fits scaled_template rotation)
      with (negb ((Locals.search_height L
                   <=? Np.shape0 (if Qeq_bool rotation 0 then scaled_template
                                  else rotate_template scaled_template rotation))%Z
                  || (Locals.search_width L
                      <=? Np.shape1 (if Qeq_bool rotation 0 then scaled_template
                                     else rotate_template scaled_template
                                            rotation))%Z))
      by reflexivity.
    destruct (_ || _); cbn [negb].
    + reflexivity.
    + cbn [List.map]. rewrite run_pass_labels, <- app_assoc. reflexivity.
Qed.

Lemma scale_fold_labels scales :
  forall st,
    List.map PassStat.pass (Sweep.stats (fold_left (scale_body L) scales st))
    = List.map PassStat.pass (Sweep.stats st)
      ++ List.map label_of (flat_map (scale_passes L) scales).
Proof.
  induction scales as [| scale scales IH]; intro st;
    cbn [fold_left flat_map].
  - cbn. now rewrite app_nil_r.
  - rewrite IH, map_app, app_assoc. f_equal.
    unfold scale_body, scale_passes. cbv zeta.
    destruct (_ || _); [now rewrite app_nil_r |].
    destruct (_ || _); [now rewrite app_nil_r |].
    apply rotation_fold_labels.
Qed.

(** The stats of a sweep list the executed passes, one entry each and
    in sweep order. *)
Lemma sweep_labels clock :
  List.map PassStat.pass (Sweep.stats (sweep L clock))
  = List.map label_of (executed_passes L).
Proof. unfold sweep, executed_passes. now rewrite scale_fold_labels. Qed.

(** Two sweep states that differ in their clocks and recorded
    durations only. *)
Let alike (st1 st2 : Sweep.t) : Prop :=
  Sweep.candidates st1 = Sweep.candidates st2 /\
  List.map erase_duration (Sweep.stats st1)
  = List.map erase_duration (Sweep.stats st2).

Lemma run_pass_alike scale rotation variant st1 st2 :
  alike st1 st2 ->
  alike (run_pass L scale rotation variant st1)
        (run_pass L scale rotation variant st2).
Proof.
  intros [Hc Hs]. unfold alike, run_pass, perf_counter.
  cbn [Sweep.candidates Sweep.stats]. split.
  - now rewrite Hc.
  - rewrite !map_app, Hs. reflexivity.
Qed.

Lemma rotation_fold_alike scale scaled_template rotations :
  forall st1 st2,
    alike st1 st2 ->
    alike (fold_left (rotation_body L scale scaled_template) rotations st1)
          (fold_left (rotation_body L scale scaled_template) rotations st2).
Proof.
  induction rotations as [| rotation rotations IH]; intros st1 st2 H; simpl.
  - exact H.
  - apply IH. unfold rotation_body.
    destruct (_ || _); [exact H | now apply run_pass_alike].
Qed.

Lemma scale_fold_alike scales :
  forall st1 st2,
    alike st1 st2 ->
    alike (fold_left (scale_body L) scales st1)
          (fold_left (scale_body L) scales st2).
Proof.
  induction scales as [| scale scales IH]; intros st1 st2 H; simpl.
  - exact H.
  - apply IH. unfold scale_body. cbv zeta.
    destruct (_ || _); [exact H |].
    destruct (_ || _); [exact H |].
    now apply rotation_fold_alike.
Qed.

(** The readings of the clock reach the durations and nothing else. *)
Lemma sweep_clock_independent clock1 clock2 :
  Sweep.candidates (sweep L clock1) = Sweep.candidates (sweep L clock2) /\
  List.map erase_duration (Sweep.stats (sweep L clock1))
  = List.map erase_duration (Sweep.stats (sweep L clock2)).
Proof.
  unfold sweep. apply scale_fold_alike. split; reflexivity.
Qed.

End SweepFacts.

(** ** Results of [match_selection] *)

Section Results.
Context {E : Externals}.

(** Steps through the tests and destructuring bindings of [prepare] on
    both sides of an equation between two runs of the same request. *)
Ltac step_prepare :=
  repeat match goal with
  | |- context [match decode_image_data ?d with _ => _ end] =>
    destruct (decode_image_data d); [reflexivity |]
  | |- context [if ?c then inl ?e else _] => destruct c; [reflexivity |]
  | |- context [normalized_to_pixels ?b ?w ?h] =>
    let l := fresh "left" in let t := fresh "top" in
    let r := fresh "right" in let b' := fresh "bottom" in
    destruct (normalized_to_pixels b w h) as [[[l t] r] b']
  | |- context [maybe_downscale_search ?a ?b] =>
    let a' := fresh "search" in let b' := fresh "template" in
    let f := fresh "factor" in
    destruct (maybe_downscale_search a b) as [[a' b'] f]
  end.

(** X25: When the request passes [prepare], every OpenCV call of the
    sweep returns, and the sweep leaves [candidates] empty,
    [match_selection] returns, without error, the empty match list, no
    best similarity, the stats of the sweep (one entry per executed
    pass, in sweep order), the selection of the request and its
    resolved search region. *)
Theorem empty_sweep_gives_empty_result
    (payload : MatchRequest.t) (clock : Clock) (L : Locals.t) :
  prepare payload = inr L ->
  Sweep.candidates (sweep L clock) = [] ->
  fst (match_selection payload clock)
  = inr (Response.mk [] (Sweep.stats (sweep L clock)) None
                     (MatchRequest.coordinates payload)
                     (resolved_search_box payload)) /\
  List.map PassStat.pass (Sweep.stats (sweep L clock))
  = List.map (fun sr => format_pass (fst sr) (snd sr)) (executed_passes L).
Proof.
  intros HL Hc. split; [| apply sweep_labels].
  unfold match_selection. rewrite HL. cbn [fst].
  unfold respond. rewrite Hc.
  destruct (prepare_inv payload L HL)
    as (image_bgr & r & b & _ & _ & _ & _ & _ & Hsel & _ & Hbox & _).
  now rewrite Hsel, Hbox.
Qed.

(** C10 (amended): an empty [scales] list, and an empty [rotations]
    list, give the very result of the request with that field unset,
    and the sweep then runs over the default list. *)
Theorem empty_sweep_lists_fall_back
    (payload : MatchRequest.t) (opts : MatchOptions.t) (clock : Clock) :
  MatchRequest.options payload = Some opts ->
  (MatchOptions.scales opts = Some [] ->
   match_selection payload clock
   = match_selection
       (MatchRequest.mk (MatchRequest.image payload)
                        (MatchRequest.coordinates payload)
                        (Some (MatchOptions.with_scales opts None)))
       clock) /\
  (MatchOptions.rotations opts = Some [] ->
   match_selection payload clock
   = match_selection
       (MatchRequest.mk (MatchRequest.image payload)
                        (MatchRequest.coordinates payload)
                        (Some (MatchOptions.with_rotations opts None)))
       clock) /\
  (forall L, prepare payload = inr L ->
     (MatchOptions.scales opts = Some [] ->
      Locals.default_scales L = [65 # 100; 85 # 100; 1; 12 # 10; 145 # 100]) /\
     (MatchOptions.rotations opts = Some [] ->
      Locals.default_rotations L = [0])).
Proof.
  intro Hopts.
  destruct payload as [image coordinates options].
  destruct opts as [mode min_similarity max_matches nms_iou scales rotations
                    search_padding label].
  cbn [MatchRequest.options MatchRequest.image MatchRequest.coordinates
       MatchOptions.scales MatchOptions.rotations] in *.
  subst options. split; [| split].
  - intros ->. unfold match_selection, prepare, MatchOptions.with_scales.
    cbn [MatchRequest.options MatchRequest.image MatchRequest.coordinates
         MatchOptions.mode MatchOptions.min_similarity MatchOptions.max_matches
         MatchOptions.nms_iou MatchOptions.scales MatchOptions.rotations
         MatchOptions.search_padding MatchOptions.label].
    step_prepare. reflexivity.
  - intros ->. unfold match_selection, prepare, MatchOptions.with_rotations.
    cbn [MatchRequest.options MatchRequest.image MatchRequest.coordinates
         MatchOptions.mode MatchOptions.min_similarity MatchOptions.max_matches
         MatchOptions.nms_iou MatchOptions.scales MatchOptions.rotations
         MatchOptions.search_padding MatchOptions.label].
    step_prepare. reflexivity.
  - intros L HL.
    destruct (prepare_inv _ L HL)
      as (image_bgr & r & b & _ & _ & _ & _ & _ & _ & Ho & _ & _ & _ & _
          & _ & _ & Hs & Hr).
    rewrite Hs, Hr, Ho. unfold resolved_options.
    cbn [MatchRequest.options MatchOptions.scales MatchOptions.rotations].
    split; intros ->; reflexivity.
Qed.

(** C1, as amended: two runs of [match_selection] on the same request
    return the same error, or responses that agree on [matches],
    [bestSimilarity], [selection], [searchRegion] and on every field of
    every stats entry except [durationMs], whatever the clock reads. *)
Theorem match_selection_deterministic_up_to_timing
    (payload : MatchRequest.t) (clock1 clock2 : Clock) :
  erase_durations (fst (match_selection payload clock1))
  = erase_durations (fst (match_selection payload clock2)).
Proof.
  unfold match_selection.
  destruct (prepare payload) as [exc | L]; [reflexivity |].
  cbn [fst erase_durations].
  destruct (sweep_clock_independent L clock1 clock2) as [Hc Hs].
  unfold respond. rewrite Hc.
  destruct (Sweep.candidates (sweep L clock2));
    cbn [Response.matches Response.stats Response.bestSimilarity
         Response.selection Response.searchRegion];
    now rewrite Hs.
Qed.

End Results.

(** ** The theorems above on the sample requests *)

Lemma degenerate_geometry_rejected_witness :
  @match_selection empty_image tiny_request (Stub.ticking 1)
  = (inl (mkHTTPException 400 "Invalid image dimensions"), Stub.ticking 1) /\
  @match_selection Stub.plain tiny_request (Stub.ticking 1)
  = (inl (mkHTTPException 400 "Selection too small for template matching"),
     Stub.ticking 1).
Proof.
  split.
  - apply (proj1 (@degenerate_geometry_rejected empty_image tiny_request
                    (Stub.ticking 1) (Stub.grey 0 0) eq_refl)).
    left. reflexivity.
  - pose proof (proj2 (@degenerate_geometry_rejected Stub.plain tiny_request
                         (Stub.ticking 1) (Stub.grey 1000 1000) eq_refl)) as H.
    apply H.
    + discriminate.
    + discriminate.
    + reflexivity.
    + left. reflexivity.
Defined.

Lemma empty_sweep_gives_empty_result_witness :
  let L := @Stub.locals_of blank40 centre_request in
  fst (@match_selection blank40 centre_request (Stub.ticking 1))
  = inr (Response.mk [] (Sweep.stats (@sweep blank40 L (Stub.ticking 1))) None
                     (MatchRequest.coordinates centre_request)
                     (resolved_search_box centre_request)) /\
  List.map PassStat.pass (Sweep.stats (@sweep blank40 L (Stub.ticking 1)))
  = List.map (fun sr => @format_pass blank40 (fst sr) (snd sr))
             (@executed_passes blank40 L).
Proof.
  apply (@empty_sweep_gives_empty_result blank40 centre_request
           (Stub.ticking 1) (@Stub.locals_of blank40 centre_request)).
  - vm_compute. reflexivity.
  - vm_compute. reflexivity.
Defined.

Lemma empty_sweep_lists_fall_back_witness :
  @match_selection peaked20 empty_lists_request (Stub.ticking 1)
  = @match_selection peaked20
      (MatchRequest.mk (MatchRequest.image empty_lists_request)
         (MatchRequest.coordinates empty_lists_request)
         (Some (MatchOptions.with_scales empty_lists_options None)))
      (Stub.ticking 1) /\
  Locals.default_scales (@Stub.locals_of peaked20 empty_lists_request)
  = [65 # 100; 85 # 100; 1; 12 # 10; 145 # 100] /\
  Locals.default_rotations (@Stub.locals_of peaked20 empty_lists_request)
  = [0].
Proof.
  destruct (@empty_sweep_lists_fall_back peaked20 empty_lists_request
              empty_lists_options (Stub.ticking 1) eq_refl)
    as (Hscales & _ & Hlists).
  split; [exact (Hscales eq_refl) |].
  assert (HL : @prepare peaked20 empty_lists_request
               = inr (@Stub.locals_of peaked20 empty_lists_request))
    by (vm_compute; reflexivity).
  destruct (Hlists _ HL) as [Hs Hr].
  split; [exact (Hs eq_refl) | exact (Hr eq_refl)].
Defined.

(** C1, as claimed, fails on [stats]: the same request served under two
    clocks gives two different responses, since [durationMs] is the
    difference of two clock readings. *)
Lemma match_selection_depends_on_clock :
  fst (@match_selection peaked20 centre_request (Stub.ticking 1))
  <> fst (@match_selection peaked20 centre_request (Stub.ticking 2)) /\
  List.map PassStat.durationMs
    match fst (@match_selection peaked20 centre_request (Stub.ticking 1)) with
    | inr resp => Response.stats resp
    | inl _ => []
    end = [1000; 1000; 1000; 1000; 1000] /\
  List.map PassStat.durationMs
    match fst (@match_selection peaked20 centre_request (Stub.ticking 2)) with
    | inr resp => Response.stats resp
    | inl _ => []
    end = [2000; 2000; 2000; 2000; 2000].
Proof.
  split; [| split; vm_compute; reflexivity].
  intro H.
  apply (f_equal (fun r => match r with
                           | inr resp =>
                             List.map PassStat.durationMs (Response.stats resp)
                           | inl _ => []
                           end)) in H.
  vm_compute in H. discriminate H.
Qed.

(** ** Where the candidates of a sweep lie *)

Lemma indices_range {A} (a : ndarray A) r c :
  In (r, c) (Np.indices a) -> (r < nrows a)%nat /\ (c < ncols a)%nat.
Proof.
  unfold Np.indices. intro H.
  apply in_flat_map in H. destruct H as (r' & Hr & Hc).
  apply in_map_iff in Hc. destruct Hc as (c' & Heq & Hc).
  injection Heq as <- <-.
  apply in_seq in Hr, Hc. lia.
Qed.

Lemma sorted_desc_In {A} (key : A -> Q) (l : list A) a :
  In a (sorted_desc key l) -> In a l.
Proof.
  intro H.
  assert (HF : Forall (fun b => In b l) (sorted_desc key l)).
  { apply sorted_desc_Forall. now apply Forall_forall. }
  rewrite Forall_forall in HF. now apply HF.
Qed.

Lemma firstn_In {A} (n : nat) (l : list A) a : In a (firstn n l) -> In a l.
Proof.
  intro H. rewrite <- (firstn_skipn n l). apply in_or_app. now left.
Qed.

(** Every hit of a pass is a cell of the correlation map. *)
Lemma pass_hits_range result min_similarity max_matches xy :
  In xy (pass_hits result min_similarity max_matches) ->
  (fst xy < ncols result)%nat /\ (snd xy < nrows result)%nat.
Proof.
  assert (Hloc : forall p,
             In p (List.map (fun rc : nat * nat => (snd rc, fst rc))
                            (Np.where_ge result min_similarity)) ->
             (fst p < ncols result)%nat /\ (snd p < nrows result)%nat).
  { intros p Hp. apply in_map_iff in Hp. destruct Hp as ([r c] & <- & Hrc).
    unfold Np.where_ge in Hrc. apply filter_In in Hrc.
    destruct Hrc as [Hrc _]. apply indices_range in Hrc. simpl. lia. }
  unfold pass_hits. destruct (_ <? _)%Z; [| apply Hloc].
  intro H. apply in_map_iff in H. destruct H as ([v p] & <- & Hp).
  apply firstn_In, sorted_desc_In in Hp.
  apply in_map_iff in Hp. destruct Hp as (q & Heq & Hq).
  injection Heq as _ <-. simpl. now apply Hloc.
Qed.

Lemma Qnat_plus_le (a b c : nat) :
  (a + b <= c)%nat ->
  Qnat a + inject_Z (Z.of_nat b) <= inject_Z (Z.of_nat c).
Proof.
  intro H. unfold Qnat. rewrite <- inject_Z_plus, <- Zle_Qle. lia.
Qed.

Lemma Qnat_nonneg (a : nat) : 0 <= Qnat a.
Proof. unfold Qnat. apply inject_Z_nonneg. lia. Qed.

Section Placement.
Context {E : Externals} {S : ExternalsSpec E}.
Variable L : Locals.t.
Hypothesis factor_pos : 0 < Locals.downscale_factor L.
Hypothesis height_is_shape :
  Locals.search_height L = Np.shape0 (Locals.search_surface L).
Hypothesis width_is_shape :
  Locals.search_width L = Np.shape1 (Locals.search_surface L).

Lemma run_pass_placed scale rotation variant st :
  (Np.shape0 variant < Locals.search_height L)%Z ->
  (Np.shape1 variant < Locals.search_width L)%Z ->
  Forall (placed L) (Sweep.candidates st) ->
  Forall (placed L) (Sweep.candidates (run_pass L scale rotation variant st)).
Proof.
  intros Hh Hw Hst. unfold run_pass, perf_counter.
  cbn [Sweep.candidates]. apply Forall_app. split; [exact Hst |].
  set (result := matchTemplate (Locals.search_surface L) variant).
  destruct (if (Np.size result =? 0)%Z then None else Np.amax result);
    [| constructor].
  apply Forall_forall. intros c Hc.
  apply in_map_iff in Hc. destruct Hc as (xy & <- & Hxy).
  apply pass_hits_range in Hxy. destruct Hxy as [Hx Hy].
  rewrite height_is_shape in Hh. rewrite width_is_shape in Hw.
  unfold Np.shape0, Np.shape1 in Hh, Hw.
  unfold result in Hx, Hy.
  rewrite matchTemplate_cols in Hx by lia.
  rewrite matchTemplate_rows in Hy by lia.
  assert (Hxq := Qnat_plus_le (fst xy) (ncols variant)
                   (ncols (Locals.search_surface L)) ltac:(lia)).
  assert (Hyq := Qnat_plus_le (snd xy) (nrows variant)
                   (nrows (Locals.search_surface L)) ltac:(lia)).
  pose proof (Qnat_nonneg (fst xy)) as Hx0.
  pose proof (Qnat_nonneg (snd xy)) as Hy0.
  assert (Hvw : 0 <= inject_Z (Z.of_nat (ncols variant)))
    by (apply inject_Z_nonneg; lia).
  assert (Hvh : 0 <= inject_Z (Z.of_nat (nrows variant)))
    by (apply inject_Z_nonneg; lia).
  pose proof (Qinv_lt_0_compat _ factor_pos) as Hi.
  unfold placed. cbn [Candidate.x Candidate.y Candidate.width Candidate.height].
  rewrite height_is_shape, width_is_shape.
  unfold Np.shape0, Np.shape1, Qdiv.
  set (i := / Locals.downscale_factor L) in *.
  repeat split; try lia; nra.
Qed.

Lemma rotation_fold_placed scale scaled_template rotations :
  forall st,
    Forall (placed L) (Sweep.candidates st) ->
    Forall (placed L)
      (Sweep.candidates
         (fold_left (rotation_body L scale scaled_template) rotations st)).
Proof.
  induction rotations as [| rotation rotations IH]; intros st H;
    cbn [fold_left]; [exact H |].
  apply IH. unfold rotation_body.
  destruct (_ || _) eqn:Hc; [exact H |].
  apply orb_false_iff in Hc. destruct Hc as [Hh Hw].
  apply Z.leb_gt in Hh, Hw. now apply run_pass_placed.
Qed.

Lemma sweep_placed clock : Forall (placed L) (Sweep.candidates (sweep L clock)).
Proof.
  unfold sweep.
  assert (H0 : Forall (placed L) (Sweep.candidates (Sweep.mk [] [] clock)))
    by constructor.
  revert H0. generalize (Sweep.mk [] [] clock).
  induction (Locals.default_scales L) as [| scale scales IH]; intros st H;
    cbn [fold_left]; [exact H |].
  apply IH. unfold scale_body. cbv zeta.
  destruct (_ || _); [exact H |].
  destruct (_ || _); [exact H |].
  now apply rotation_fold_placed.
Qed.

End Placement.

(** ** Bounding boxes of the response *)

Lemma slice_extent (first last n : Z) :
  (0 <= first)%Z -> (0 <= n)%Z ->
  let extent :=
    Z.of_nat (Z.to_nat (Np.slice_bound last n - Np.slice_bound first n)) in
  (0 < extent)%Z -> (first + extent <= n)%Z.
Proof.
  intros Hf Hn. unfold Np.slice_bound.
  destruct (Z.ltb_spec first 0); [lia |].
  destruct (Z.ltb_spec last 0); cbv zeta; lia.
Qed.

Lemma clamped_shares (v w n : Q) :
  0 <= v -> 0 <= w -> 0 < n -> v + w <= n ->
  clamp (v / n) 0 1 + clamp (w / n) 0 1 <= 1.
Proof.
  intros Hv Hw Hn Hsum.
  pose proof (Qinv_lt_0_compat _ Hn) as Hi.
  assert (Hone : n * / n == 1) by (apply Qmult_inv_r; lra).
  unfold Qdiv. set (i := / n) in *.
  assert (H01 : 0 <= 1) by lra.
  assert (Hvi : 0 <= v * i) by nra.
  assert (Hwi : 0 <= w * i) by nra.
  assert (Hs : v * i + w * i <= 1) by nra.
  destruct (clamp_cases (v * i) 0 1 H01) as [[? Ev] | [[? Ev] | [? Ev]]];
  destruct (clamp_cases (w * i) 0 1 H01) as [[? Ew] | [[? Ew] | [? Ew]]];
  rewrite Ev, Ew; lra.
Qed.

Section BoundingBoxes.
Context {E : Externals} {S : ExternalsSpec E}.

Lemma bounding_box_in_unit L c : Selection.in_unit (bounding_box L c).
Proof.
  assert (H01 : 0 <= 1) by lra.
  unfold Selection.in_unit, bounding_box.
  cbn [Selection.x Selection.y Selection.width Selection.height].
  repeat split; apply (clamp_bounds _ 0 1 H01).
Qed.

(** Without downscaling, the search surface is the slice of the image
    that starts at [(search_top, search_left)]. *)
Lemma unscaled_region payload L :
  prepare payload = inr L ->
  Locals.downscale_factor L == 1 ->
  (0 <= Locals.search_left L)%Z /\ (0 <= Locals.search_top L)%Z /\
  (0 < Locals.width L)%Z /\ (0 < Locals.height L)%Z /\
  ((0 < Locals.search_width L)%Z ->
   (Locals.search_left L + Locals.search_width L <= Locals.width L)%Z) /\
  ((0 < Locals.search_height L)%Z ->
   (Locals.search_top L + Locals.search_height L <= Locals.height L)%Z).
Proof.
  intros HL Hone.
  destruct (prepare_inv payload L HL)
    as (image_bgr & right & bottom & _ & Hw & Hh & Hw0 & Hh0 & _ & _ & _
        & Hpx & Hsh & Hsw & _ & Hsurf & _).
  specialize (Hsurf Hone).
  assert (Hwpos : (0 < Locals.width L)%Z)
    by (unfold Np.shape1 in Hw; lia).
  assert (Hhpos : (0 < Locals.height L)%Z)
    by (unfold Np.shape0 in Hh; lia).
  unfold normalized_to_pixels in Hpx. injection Hpx as Hleft Htop _ _.
  assert (H01 : 0 <= 1) by lra.
  assert (Hl : (0 <= Locals.search_left L)%Z).
  { rewrite <- Hleft. apply round_nonneg.
    pose proof (clamp_bounds (Selection.x (Locals.search_box L)) 0 1 H01).
    pose proof (inject_Z_nonneg (Locals.width L) ltac:(lia)). nra. }
  assert (Ht : (0 <= Locals.search_top L)%Z).
  { rewrite <- Htop. apply round_nonneg.
    pose proof (clamp_bounds (Selection.y (Locals.search_box L)) 0 1 H01).
    pose proof (inject_Z_nonneg (Locals.height L) ltac:(lia)). nra. }
  do 4 (split; [assumption |]).
  rewrite Hsw, Hsh, Hsurf, Hw, Hh.
  unfold to_unit_float, to_grayscale, Np.shape0, Np.shape1, Np.slice2, Np.map.
  cbn [nrows ncols].
  split; apply slice_extent; lia.
Qed.

Lemma placed_inside payload L c :
  prepare payload = inr L ->
  Locals.downscale_factor L == 1 ->
  placed L c ->
  Selection.inside (bounding_box L c).
Proof.
  intros HL Hone (Hsw & Hsh & Hx & Hy & Hw & Hh & Hxw & Hyh).
  destruct (unscaled_region payload L HL Hone)
    as (Hl & Ht & Hwpos & Hhpos & Hlw & Hth).
  specialize (Hlw Hsw). specialize (Hth Hsh).
  assert (Hd : forall a, a / Locals.downscale_factor L == a)
    by (intro a; rewrite Hone; field).
  rewrite Hd in Hxw, Hyh.
  assert (Hl' := inject_Z_nonneg _ Hl).
  assert (Ht' := inject_Z_nonneg _ Ht).
  assert (Hlw' : inject_Z (Locals.search_left L)
                 + inject_Z (Locals.search_width L)
                 <= inject_Z (Locals.width L))
    by (rewrite <- inject_Z_plus, <- Zle_Qle; exact Hlw).
  assert (Hth' : inject_Z (Locals.search_top L)
                 + inject_Z (Locals.search_height L)
                 <= inject_Z (Locals.height L))
    by (rewrite <- inject_Z_plus, <- Zle_Qle; exact Hth).
  assert (HW : 0 < inject_Z (Locals.width L))
    by (change 0 with (inject_Z 0); now rewrite <- Zlt_Qlt).
  assert (HH : 0 < inject_Z (Locals.height L))
    by (change 0 with (inject_Z 0); now rewrite <- Zlt_Qlt).
  split; cbn [bounding_box Selection.x Selection.y Selection.width
              Selection.height]; apply clamped_shares; lra.
Qed.

(** X1: In every returned match each of [x], [y], [width] and [height] of
    [boundingBox] lies in [0, 1]; and when the search patch was not
    downscaled (the downscale factor is 1), the box also satisfies
    [x + width <= 1] and [y + height <= 1]. *)
Theorem bounding_boxes_clamped
    (payload : MatchRequest.t) (clock : Clock) (L : Locals.t)
    (resp : Response.t) :
  prepare payload = inr L ->
  fst (match_selection payload clock) = inr resp ->
  Forall (fun m =>
            Selection.in_unit (Match.boundingBox m) /\
            (Locals.downscale_factor L == 1 ->
             Selection.inside (Match.boundingBox m)))
         (Response.matches resp).
Proof.
  intros HL Hresp. unfold match_selection in Hresp. rewrite HL in Hresp.
  cbn [fst] in Hresp. injection Hresp as <-.
  unfold respond.
  destruct (Sweep.candidates (sweep L clock)) as [| c0 cs] eqn:Hc;
    cbn [Response.matches]; [constructor |].
  rewrite <- Hc. clear Hc c0 cs.
  apply sorted_desc_Forall, Forall_map.
  destruct (prepare_inv payload L HL)
    as (_ & _ & _ & _ & _ & _ & _ & _ & _ & _ & _ & _ & Hsh & Hsw & Hf & _).
  pose proof (sweep_placed L Hf Hsh Hsw clock) as Hplaced.
  assert (Hkept : Forall (placed L)
            (non_max_suppression (Sweep.candidates (sweep L clock))
               (MatchOptions.nms_iou (Locals.options L))
               (MatchOptions.max_matches (Locals.options L)))).
  { rewrite non_max_suppression_pick.
    destruct (Sweep.candidates (sweep L clock)); [constructor |].
    now apply nms_pick_Forall, sorted_desc_Forall. }
  eapply Forall_impl; [| exact Hkept].
  intros c Hp. cbn [Match.boundingBox]. split.
  - apply bounding_box_in_unit.
  - intro Hone. now apply (placed_inside payload).
Qed.

End BoundingBoxes.

(** The stand-in meets the shape contract of [cv2.matchTemplate]. *)
Lemma stub_spec img score : ExternalsSpec (Stub.externals img score).
Proof. split; intros image templ H; reflexivity. Qed.

Lemma bounding_boxes_clamped_witness :
  Forall (fun m =>
            Selection.in_unit (Match.boundingBox m) /\
            (Locals.downscale_factor (@Stub.locals_of peaked20 centre_request)
             == 1 ->
             Selection.inside (Match.boundingBox m)))
         (Response.matches
            (@Stub.response_of peaked20 centre_request (Stub.ticking 1))).
Proof.
  apply (@bounding_boxes_clamped peaked20 (stub_spec _ _) centre_request
           (Stub.ticking 1) (@Stub.locals_of peaked20 centre_request)
           (@Stub.response_of peaked20 centre_request (Stub.ticking 1)));
    vm_compute; reflexivity.
Defined.


(** * Further properties of the code *)

(** ** [clamp] and [normalized_to_pixels] *)

(** X2: With ordered bounds [clamp] lands between them and leaves a value
    already between them unchanged; with crossed bounds it returns the
    lower one. *)
Theorem clamp_in_range_or_lower (value min_value max_value : Q) :
  (min_value <= max_value ->
   min_value <= clamp value min_value max_value <= max_value /\
   (min_value <= value <= max_value ->
    clamp value min_value max_value == value)) /\
  (max_value < min_value -> clamp value min_value max_value == min_value).
Proof.
  split.
  - intro H. split; [now apply clamp_bounds |].
    intro Hv. unfold clamp. py_minmax; lra.
  - intro H. unfold clamp. py_minmax; lra.
Qed.

Lemma clamp_in_range_or_lower_witness :
  (3 # 10 <= clamp (7 # 10) (3 # 10) (1 # 2) <= 1 # 2 /\
   clamp (4 # 10) (3 # 10) (1 # 2) == 4 # 10) /\
  clamp (7 # 10) (1 # 10000) (- (1 # 2)) == 1 # 10000.
Proof.
  split; [split |].
  - apply (proj1 (clamp_in_range_or_lower (7 # 10) (3 # 10) (1 # 2))). lra.
  - apply (proj1 (clamp_in_range_or_lower (4 # 10) (3 # 10) (1 # 2)));
      [lra | split; lra].
  - apply (proj2 (clamp_in_range_or_lower (7 # 10) (1 # 10000) (- (1 # 2)))).
    lra.
Defined.

Lemma round_inject_Z (n : Z) : Py.round (inject_Z n) = n.
Proof.
  unfold Py.round.
  pose proof (Qfloor_le (inject_Z n + (1 # 2))) as Hle.
  pose proof (Qlt_floor (inject_Z n + (1 # 2))) as Hlt.
  set (m := Qfloor (inject_Z n + (1 # 2))) in *.
  assert (Hm : m = n).
  { assert (H1 : inject_Z m < inject_Z (n + 1))
      by (rewrite inject_Z_plus; change (inject_Z 1) with 1; lra).
    assert (H2 : inject_Z n < inject_Z (m + 1)) by lra.
    rewrite <- Zlt_Qlt in H1, H2. lia. }
  rewrite Hm.
  assert (Hne : Qeq_bool (inject_Z n) (inject_Z n + (1 # 2)) = false).
  { destruct (Qeq_bool _ _) eqn:Heq; [| reflexivity].
    apply Qeq_bool_iff in Heq. lra. }
  now rewrite Hne.
Qed.

Lemma round_le_bound (q : Q) (n : Z) : q <= inject_Z n -> (Py.round q <= n)%Z.
Proof.
  intro H. rewrite <- (round_inject_Z n). now apply PyFacts.round_mono.
Qed.

(** X3: For an image of non-negative size the pixel rectangle starts inside
    the image and is never inverted: [0 <= left <= right],
    [0 <= top <= bottom], [left <= width] and [top <= height]. *)
Theorem normalized_to_pixels_ordered (box : Selection.t) (width height : Z) :
  (0 <= width)%Z -> (0 <= height)%Z ->
  let '(px_left, px_top, px_right, px_bottom) := normalized_to_pixels box width height in
  (0 <= px_left <= px_right)%Z /\ (0 <= px_top <= px_bottom)%Z /\
  (px_left <= width)%Z /\ (px_top <= height)%Z.
Proof.
  intros Hw Hh. unfold normalized_to_pixels.
  assert (H01 : 0 <= 1) by lra.
  pose proof (clamp_bounds (Selection.x box) 0 1 H01) as Hx.
  pose proof (clamp_bounds (Selection.y box) 0 1 H01) as Hy.
  set (x := clamp (Selection.x box) 0 1) in *.
  set (y := clamp (Selection.y box) 0 1) in *.
  pose proof (clamp_lower (Selection.width box) (1 # 10000) (1 - x)) as Hcw.
  pose proof (clamp_lower (Selection.height box) (1 # 10000) (1 - y)) as Hch.
  pose proof (inject_Z_nonneg width Hw) as HW.
  pose proof (inject_Z_nonneg height Hh) as HH.
  repeat split.
  - apply round_nonneg. nra.
  - apply PyFacts.round_mono. nra.
  - apply round_nonneg. nra.
  - apply PyFacts.round_mono. nra.
  - apply round_le_bound. nra.
  - apply round_le_bound. nra.
Qed.

Lemma normalized_to_pixels_ordered_witness :
  let '(px_left, px_top, px_right, px_bottom) :=
    normalized_to_pixels (Selection.mk (1 # 4) (1 # 4) (1 # 2) (1 # 2))
                         20 20 in
  (0 <= px_left <= px_right)%Z /\ (0 <= px_top <= px_bottom)%Z /\
  (px_left <= 20)%Z /\ (px_top <= 20)%Z.
Proof.
  apply (normalized_to_pixels_ordered
           (Selection.mk (1 # 4) (1 # 4) (1 # 2) (1 # 2)) 20 20); lia.
Defined.

(** X4: When the box starts at least 0.0001 before the right (lower) edge,
    the pixel rectangle also ends inside the image. *)
Theorem normalized_to_pixels_within_image
    (box : Selection.t) (width height : Z) :
  (0 <= width)%Z -> (0 <= height)%Z ->
  let '(px_left, px_top, px_right, px_bottom) := normalized_to_pixels box width height in
  (Selection.x box <= 9999 # 10000 -> (px_right <= width)%Z) /\
  (Selection.y box <= 9999 # 10000 -> (px_bottom <= height)%Z).
Proof.
  intros Hw Hh. unfold normalized_to_pixels.
  pose proof (inject_Z_nonneg width Hw) as HW.
  pose proof (inject_Z_nonneg height Hh) as HH.
  split; intro Hb; apply round_le_bound.
  - assert (Hs : clamp (Selection.x box) 0 1
                 + clamp (Selection.width box) (1 # 10000)
                         (1 - clamp (Selection.x box) 0 1) <= 1)
      by (unfold clamp; py_minmax; lra).
    nra.
  - assert (Hs : clamp (Selection.y box) 0 1
                 + clamp (Selection.height box) (1 # 10000)
                         (1 - clamp (Selection.y box) 0 1) <= 1)
      by (unfold clamp; py_minmax; lra).
    nra.
Qed.

Lemma normalized_to_pixels_within_image_witness :
  let '(px_left, px_top, px_right, px_bottom) :=
    normalized_to_pixels (Selection.mk (1 # 2) (1 # 2) 1 1) 1000 800 in
  (px_right <= 1000)%Z /\ (px_bottom <= 800)%Z.
Proof.
  destruct (normalized_to_pixels_within_image
              (Selection.mk (1 # 2) (1 # 2) 1 1) 1000 800
              ltac:(lia) ltac:(lia)) as [Hr Hb].
  split; [apply Hr | apply Hb]; simpl; lra.
Defined.

(** ** What [non_max_suppression] returns *)

Lemma insert_desc_In {A} (key : A -> Q) (a b : A) (l : list A) :
  In b (insert_desc key a l) <-> b = a \/ In b l.
Proof.
  induction l as [| c l IH]; simpl.
  - intuition.
  - destruct (Py.ltb (key a) (key c)); simpl; rewrite ?IH; intuition.
Qed.

Lemma sorted_desc_In_iff {A} (key : A -> Q) (l : list A) (b : A) :
  In b (sorted_desc key l) <-> In b l.
Proof.
  induction l as [| a l IH]; [reflexivity |].
  change (sorted_desc key (a :: l)) with (insert_desc key a (sorted_desc key l)).
  rewrite insert_desc_In, IH. simpl. intuition.
Qed.

Section NmsOutput.
Variable iou_threshold : Q.
Variable max_detections : Z.
Variable boxes : list Candidate.t.

Let output := non_max_suppression boxes iou_threshold max_detections.

Lemma nms_output_pick :
  output = nms_pick iou_threshold (Z.to_nat max_detections)
                    (sorted_desc Candidate.score boxes).
Proof.
  unfold output. rewrite non_max_suppression_pick.
  destruct boxes; [now rewrite nms_pick_nil | reflexivity].
Qed.

(** X8: The output is no longer than the input and no longer than the
    limit; a limit of zero or less gives the empty list. *)
Theorem nms_output_size :
  (List.length output <= List.length boxes)%nat /\
  (Z.of_nat (List.length output) <= Z.max 0 max_detections)%Z.
Proof.
  rewrite nms_output_pick. split.
  - rewrite <- (sorted_desc_length Candidate.score boxes).
    apply nms_pick_length_input.
  - pose proof (nms_pick_length iou_threshold (Z.to_nat max_detections)
                  (sorted_desc Candidate.score boxes)). lia.
Qed.

(** X9: Every box of the output is a box of the input, and the output is in
    descending order of score. *)
Theorem nms_output_sorted_selection :
  (forall c, In c output -> In c boxes) /\
  StronglySorted (desc Candidate.score) output.
Proof.
  rewrite nms_output_pick. split.
  - intros c Hc.
    assert (HF : Forall (fun b => In b boxes)
                   (nms_pick iou_threshold (Z.to_nat max_detections)
                      (sorted_desc Candidate.score boxes))).
    { apply nms_pick_Forall, sorted_desc_Forall. now apply Forall_forall. }
    rewrite Forall_forall in HF. now apply HF.
  - apply nms_pick_sorted, sorted_desc_sorted.
Qed.

(** X10: Any two boxes of the output overlap by at most the threshold: each
    box has [intersection_over_union <= iou_threshold] with every box
    placed before it. *)
Theorem nms_output_separated :
  ForallOrdPairs
    (fun earlier later =>
       intersection_over_union later earlier <= iou_threshold)
    output.
Proof.
  rewrite nms_output_pick.
  pose proof (nms_pick_survivors iou_threshold (Z.to_nat max_detections)
                (sorted_desc Candidate.score boxes)) as H.
  induction H as [| p l Hp Hl IH]; constructor; [| exact IH].
  eapply Forall_impl; [| exact Hp].
  intros c Hc. now apply PyFacts.leb_le.
Qed.

End NmsOutput.

Section NmsGreedy.
Variable iou_threshold : Q.

Lemma nms_pick_maximal k :
  forall l c,
    In c l ->
    In c (nms_pick iou_threshold k l) \/
    (exists p, In p (nms_pick iou_threshold k l) /\
               iou_threshold < intersection_over_union c p) \/
    List.length (nms_pick iou_threshold k l) = k.
Proof.
  induction k as [| k IH]; intros l c Hin.
  - right; right. reflexivity.
  - destruct l as [| current rest]; [destruct Hin |].
    cbn [nms_pick].
    destruct Hin as [-> | Hin]; [left; now left |].
    destruct (Py.leb (intersection_over_union c current) iou_threshold)
      eqn:Hkeep.
    + assert (Hf : In c (filter
                 (fun candidate =>
                    Py.leb (intersection_over_union candidate current)
                           iou_threshold) rest))
        by (apply filter_In; split; assumption).
      destruct (IH _ c Hf) as [H | [(p & Hp & Hlt) | H]].
      * left. now right.
      * right; left. exists p. split; [now right | exact Hlt].
      * right; right. simpl. now rewrite H.
    + right; left. exists current. split; [now left |].
      now apply PyFacts.leb_gt.
Qed.

(** X11: Greedy suppression drops no box without cause: every input box is
    in the output, or overlaps some output box by more than the
    threshold, or the output has reached the limit. *)
Theorem nms_drops_only_suppressed
    (boxes : list Candidate.t) (max_detections : Z) (c : Candidate.t) :
  In c boxes ->
  let output := non_max_suppression boxes iou_threshold max_detections in
  In c output \/
  (exists p, In p output /\ iou_threshold < intersection_over_union c p) \/
  Z.of_nat (List.length output) = Z.max 0 max_detections.
Proof.
  intros Hin output. subst output. rewrite nms_output_pick.
  apply (sorted_desc_In_iff Candidate.score) in Hin.
  destruct (nms_pick_maximal (Z.to_nat max_detections) _ c Hin)
    as [H | [H | H]]; [now left | right; now left | right; right].
  rewrite H. lia.
Qed.

(** X12: With a non-empty input and a limit of at least one, the output
    starts with a box of the highest score. *)
Theorem nms_keeps_best (boxes : list Candidate.t) (max_detections : Z) :
  boxes <> [] -> (1 <= max_detections)%Z ->
  exists best rest,
    non_max_suppression boxes iou_threshold max_detections = best :: rest /\
    In best boxes /\
    forall c, In c boxes -> Candidate.score c <= Candidate.score best.
Proof.
  intros Hne Hmax. rewrite nms_output_pick.
  pose proof (sorted_desc_sorted Candidate.score boxes) as Hs.
  pose proof (sorted_desc_In_iff Candidate.score boxes) as Hin.
  destruct (sorted_desc Candidate.score boxes) as [| best rest].
  - destruct boxes as [| b boxes']; [congruence |].
    exfalso. apply (proj2 (Hin b)). now left.
  - destruct (Z.to_nat max_detections) as [| k] eqn:Hk; [lia |].
    cbn [nms_pick]. eexists. eexists. split; [reflexivity |].
    split; [apply Hin; now left |].
    intros c Hc. apply Hin in Hc. destruct Hc as [<- | Hc]; [lra |].
    apply StronglySorted_inv in Hs. destruct Hs as [_ Hall].
    rewrite Forall_forall in Hall. exact (Hall c Hc).
Qed.

End NmsGreedy.

Lemma nms_drops_only_suppressed_witness :
  let output := non_max_suppression [box_b; box_far; box_a] (1 # 10) 5 in
  In box_b output \/
  (exists p, In p output /\ 1 # 10 < intersection_over_union box_b p) \/
  Z.of_nat (List.length output) = Z.max 0 5.
Proof.
  apply (nms_drops_only_suppressed (1 # 10) [box_b; box_far; box_a] 5 box_b).
  left. reflexivity.
Defined.

Lemma nms_keeps_best_witness :
  exists best rest,
    non_max_suppression [box_b; box_far; box_a] (1 # 10) 5 = best :: rest /\
    In best [box_b; box_far; box_a] /\
    forall c, In c [box_b; box_far; box_a] ->
              Candidate.score c <= Candidate.score best.
Proof.
  apply (nms_keeps_best (1 # 10) [box_b; box_far; box_a] 5);
    [discriminate | lia].
Defined.

(** ** ScaleGuard, for every input *)

Section ScaleGuardFacts.
Context {E : Externals}.

(** X14: Whatever the patches, the factor lies in [0.05, 1], so the floor
    [max(downscale_factor, 1e-3)] applied by [match_selection] never
    changes it. *)
Theorem maybe_downscale_search_factor_range
    (search_patch template_patch : ndarray Z) :
  let factor := snd (maybe_downscale_search search_patch template_patch) in
  5 # 100 <= factor /\ factor <= 1 /\ Py.max factor (1 # 1000) = factor.
Proof.
  cbv zeta.
  assert (H : 5 # 100
              <= snd (maybe_downscale_search search_patch template_patch)
              <= 1).
  { unfold maybe_downscale_search.
    destruct (_ <=? MAX_GLOBAL_SEARCH_DIMENSION)%Z; [simpl; lra |].
    match goal with
    | |- context [Py.leb (999 # 1000) ?f] => destruct (Py.leb (999 # 1000) f)
    end; simpl; [lra |]. py_minmax; lra. }
  split; [apply H | split; [apply H |]].
  unfold Py.max. rewrite (proj2 (PyFacts.ltb_ge _ _)); [reflexivity | lra].
Qed.

(** X15: The guard has two outcomes: factor 1 with both patches handed back
    as they came, which is the outcome whenever the search patch is at
    most 1600 pixels in each dimension; or a factor below 0.999 with the
    two patches resized, the search patch to at least 8 and the template
    to at least 5 pixels in each dimension. *)
Theorem maybe_downscale_search_outcomes
    (search_patch template_patch : ndarray Z) :
  let '(search, template, factor) :=
    maybe_downscale_search search_patch template_patch in
  ((Z.max (Np.shape0 search_patch) (Np.shape1 search_patch)
    <= MAX_GLOBAL_SEARCH_DIMENSION)%Z ->
   factor = 1 /\ search = search_patch /\ template = template_patch) /\
  ((factor = 1 /\ search = search_patch /\ template = template_patch) \/
   (factor < 999 # 1000 /\
    (MAX_GLOBAL_SEARCH_DIMENSION
     < Z.max (Np.shape0 search_patch) (Np.shape1 search_patch))%Z /\
    exists new_search_width new_search_height
           new_template_width new_template_height,
      (8 <= new_search_width)%Z /\ (8 <= new_search_height)%Z /\
      (MIN_TEMPLATE_DIMENSION <= new_template_width)%Z /\
      (MIN_TEMPLATE_DIMENSION <= new_template_height)%Z /\
      search = resize_area search_patch new_search_width new_search_height /\
      template = resize_area template_patch
                             new_template_width new_template_height)).
Proof.
  unfold maybe_downscale_search.
  destruct (Z.leb_spec (Z.max (Np.shape0 search_patch) (Np.shape1 search_patch))
                       MAX_GLOBAL_SEARCH_DIMENSION) as [Hle | Hgt].
  - split; [intros _ |]; auto.
  - match goal with
    | |- context [Py.leb (999 # 1000) ?f] =>
      destruct (Py.leb (999 # 1000) f) eqn:Hf
    end.
    + split; [intro; lia | left; auto].
    + apply PyFacts.leb_gt in Hf. split; [intro; lia |].
      right. split; [exact Hf |]. split; [exact Hgt |].
      do 4 eexists.
      split; [| split; [| split; [| split; [| split; reflexivity]]]];
        apply Z.le_max_l.
Qed.

End ScaleGuardFacts.

Lemma maybe_downscale_search_outcomes_witness :
  let '(search, template, factor) :=
    @maybe_downscale_search Stub.plain (Stub.patch 900 1600) (Stub.patch 7 9) in
  factor = 1 /\ search = Stub.patch 900 1600 /\ template = Stub.patch 7 9.
Proof.
  pose proof (@maybe_downscale_search_outcomes Stub.plain
                (Stub.patch 900 1600) (Stub.patch 7 9)) as H.
  destruct (@maybe_downscale_search Stub.plain
              (Stub.patch 900 1600) (Stub.patch 7 9)) as [[s t] f].
  apply (proj1 H). vm_compute. discriminate.
Defined.

(** ** Invariants of the sweep *)

Lemma indices_length {A} (a : ndarray A) :
  List.length (Np.indices a) = (nrows a * ncols a)%nat.
Proof.
  unfold Np.indices.
  assert (H : forall rows,
             List.length
               (flat_map (fun r : nat =>
                            List.map (fun c : nat => (r, c))
                                     (seq 0 (ncols a))) rows)
             = (List.length rows * ncols a)%nat).
  { induction rows as [| r rows IH]; [reflexivity |].
    cbn [flat_map]. rewrite length_app, length_map, length_seq, IH.
    simpl. lia. }
  rewrite H, length_seq. reflexivity.
Qed.

(** The hits of a pass reach the threshold, are at most
    [max(max_matches * 6, 400)] and at most the cells of the map. *)
Lemma pass_hits_above result min_similarity max_matches xy :
  In xy (pass_hits result min_similarity max_matches) ->
  min_similarity <= cell result (snd xy) (fst xy).
Proof.
  assert (Hloc : forall p,
             In p (List.map (fun rc : nat * nat => (snd rc, fst rc))
                            (Np.where_ge result min_similarity)) ->
             min_similarity <= cell result (snd p) (fst p)).
  { intros p Hp. apply in_map_iff in Hp. destruct Hp as ([r c] & <- & Hrc).
    unfold Np.where_ge in Hrc. apply filter_In in Hrc.
    destruct Hrc as [_ Hge]. apply PyFacts.leb_le in Hge. exact Hge. }
  unfold pass_hits. destruct (_ <? _)%Z; [| apply Hloc].
  intro H. apply in_map_iff in H. destruct H as ([v p] & <- & Hp).
  apply firstn_In, sorted_desc_In in Hp.
  apply in_map_iff in Hp. destruct Hp as (q & Heq & Hq).
  injection Heq as _ <-. simpl. now apply Hloc.
Qed.

Lemma pass_hits_length result min_similarity max_matches :
  (Z.of_nat (List.length (pass_hits result min_similarity max_matches))
   <= Z.max (max_matches * MAX_PASS_HITS_MULTIPLIER) 400)%Z /\
  (Z.of_nat (List.length (pass_hits result min_similarity max_matches))
   <= Np.size result)%Z.
Proof.
  assert (Hcells : (List.length
                      (List.map (fun rc : nat * nat => (snd rc, fst rc))
                                (Np.where_ge result min_similarity))
                    <= nrows result * ncols result)%nat).
  { rewrite length_map. unfold Np.where_ge.
    rewrite <- indices_length. apply filter_length_le. }
  unfold pass_hits, Np.size, Np.shape0, Np.shape1.
  set (hits := List.map (fun rc : nat * nat => (snd rc, fst rc))
                        (Np.where_ge result min_similarity)) in *.
  set (max_hits := Z.max (max_matches * MAX_PASS_HITS_MULTIPLIER) 400).
  assert (Hpos : (400 <= max_hits)%Z) by apply Z.le_max_r.
  destruct (Z.ltb_spec max_hits (Z.of_nat (List.length hits))) as [Hlt | Hge].
  - rewrite length_map, length_firstn, sorted_desc_length, length_map.
    unfold Np.slice_bound.
    destruct (Z.ltb_spec max_hits 0); [lia |].
    split; nia.
  - split; nia.
Qed.

Section SweepInvariant.
Context {E : Externals}.
Variable L : Locals.t.
Variable P : Sweep.t -> Prop.

Hypothesis pass_keeps :
  forall scale rotation variant st,
    (Np.shape0 variant < Locals.search_height L)%Z ->
    (Np.shape1 variant < Locals.search_width L)%Z ->
    P st -> P (run_pass L scale rotation variant st).

(** What holds before the sweep and is kept by every executed pass
    holds after the sweep. *)
Lemma sweep_invariant clock : P (Sweep.mk [] [] clock) -> P (sweep L clock).
Proof.
  unfold sweep. generalize (Sweep.mk [] [] clock).
  induction (Locals.default_scales L) as [| scale scales IH]; intros st H;
    cbn [fold_left]; [exact H |].
  apply IH. unfold scale_body. cbv zeta.
  destruct (_ || _); [exact H |].
  destruct (_ || _); [exact H |].
  revert st H. clear IH.
  induction (Locals.default_rotations L) as [| rotation rotations IHr];
    intros st H; cbn [fold_left]; [exact H |].
  apply IHr. unfold rotation_body.
  destruct (_ || _) eqn:Hc; [exact H |].
  apply orb_false_iff in Hc. destruct Hc as [Hh Hw].
  apply Z.leb_gt in Hh, Hw. now apply pass_keeps.
Qed.

End SweepInvariant.

(** ** The response *)

Lemma StronglySorted_map {A B} (R : B -> B -> Prop) (f : A -> B) (l : list A) :
  StronglySorted (fun a b => R (f a) (f b)) l -> StronglySorted R (List.map f l).
Proof.
  induction 1 as [| a l Hs IH Ha]; simpl; constructor; [exact IH |].
  apply Forall_map. exact Ha.
Qed.

Lemma kept_candidates_pick L st :
  kept_candidates L st
  = nms_pick (MatchOptions.nms_iou (Locals.options L))
      (Z.to_nat (MatchOptions.max_matches (Locals.options L)))
      (sorted_desc Candidate.score (Sweep.candidates st)).
Proof. apply nms_output_pick. Qed.

(** The final [matches.sort] finds the matches already in order: they
    are the kept candidates, one match each, in suppression order. *)
Lemma respond_matches L st :
  Response.matches (respond L st) = List.map (match_of L) (kept_candidates L st).
Proof.
  unfold respond, kept_candidates.
  destruct (Sweep.candidates st) as [| c cs] eqn:Hc; [reflexivity |].
  cbn [Response.matches]. rewrite <- Hc.
  apply sorted_desc_fixpoint.
  apply (StronglySorted_map (desc Match.templateSimilarity)).
  fold (kept_candidates L st). rewrite kept_candidates_pick.
  apply nms_pick_sorted, sorted_desc_sorted.
Qed.

Lemma respond_best L st :
  Response.bestSimilarity (respond L st)
  = match Response.matches (respond L st) with
    | m :: _ => Some (Match.templateSimilarity m)
    | [] => None
    end.
Proof. unfold respond. now destruct (Sweep.candidates st). Qed.

Lemma respond_stats L st : Response.stats (respond L st) = Sweep.stats st.
Proof. unfold respond. now destruct (Sweep.candidates st). Qed.

Lemma respond_regions L st :
  Response.selection (respond L st) = Locals.selection L /\
  Response.searchRegion (respond L st) = Locals.search_box L.
Proof. unfold respond. now destruct (Sweep.candidates st). Qed.

Section ResponseFacts.
Context {E : Externals}.

Lemma match_selection_inv payload clock resp :
  fst (match_selection payload clock) = inr resp ->
  exists L, prepare payload = inr L /\ resp = respond L (sweep L clock).
Proof.
  unfold match_selection. destruct (prepare payload) as [exc | L];
    cbn [fst]; [discriminate |].
  intro H. injection H as <-. now exists L.
Qed.

(** X16: Every rejection of [match_selection] has status 400 and one of three
    details, and it is raised before the clock is read. *)
Theorem match_selection_rejections payload clock exc clock' :
  match_selection payload clock = (inl exc, clock') ->
  clock' = clock /\ status_code exc = 400%Z /\
  ((exists msg,
      decode_image_data (MatchRequest.image payload) = inl msg /\
      detail exc = ("Failed to decode image: " ++ msg)%string) \/
   detail exc = "Invalid image dimensions"%string \/
   detail exc = "Selection too small for template matching"%string).
Proof.
  unfold match_selection.
  destruct (prepare payload) as [e | L] eqn:HP; [| discriminate].
  intro H. injection H as -> <-. split; [reflexivity |].
  unfold prepare in HP.
  destruct (decode_image_data (MatchRequest.image payload)) as [msg | img].
  { injection HP as <-. split; [reflexivity |]. left. now exists msg. }
  destruct (_ || _) in HP.
  { injection HP as <-. split; [reflexivity |]. right; now left. }
  destruct (normalized_to_pixels (MatchRequest.coordinates payload) _ _)
    as [[[sl st] sr] sb].
  match type of HP with
  | context [normalized_to_pixels ?b ?w ?h] =>
    destruct (normalized_to_pixels b w h) as [[[l t] r] b']
  end.
  destruct (_ || _) in HP.
  { injection HP as <-. split; [reflexivity |]. right; now right. }
  destruct (maybe_downscale_search _ _) as [[s' t'] f]. discriminate HP.
Qed.

(** X17: A successful response echoes the selection of the request and
    reports its resolved search region: the whole image when
    [search_padding] is unset, the padded selection otherwise. *)
Theorem response_echoes_request payload clock resp :
  fst (match_selection payload clock) = inr resp ->
  Response.selection resp = MatchRequest.coordinates payload /\
  Response.searchRegion resp = resolved_search_box payload.
Proof.
  intro H. destruct (match_selection_inv _ _ _ H) as (L & HL & ->).
  destruct (prepare_inv payload L HL)
    as (img & r & b & _ & _ & _ & _ & _ & Hsel & _ & Hbox & _).
  destruct (respond_regions L (sweep L clock)) as [-> ->]. now split.
Qed.


End ResponseFacts.

Section Matches.
Context {E : Externals}.

(** X19: The matches are the candidates kept by [non_max_suppression], one
    match each and in its order, which is already the descending order
    of similarity the final sort asks for; [bestSimilarity] is the
    similarity of the first match, and no match has a higher one. *)
Theorem matches_ranked payload clock L resp :
  prepare payload = inr L ->
  fst (match_selection payload clock) = inr resp ->
  Response.matches resp
  = List.map (match_of L) (kept_candidates L (sweep L clock)) /\
  StronglySorted (desc Match.templateSimilarity) (Response.matches resp) /\
  Response.bestSimilarity resp
  = match Response.matches resp with
    | m :: _ => Some (Match.templateSimilarity m)
    | [] => None
    end /\
  (forall best m,
     Response.bestSimilarity resp = Some best ->
     In m (Response.matches resp) ->
     Match.templateSimilarity m <= best).
Proof.
  intros HL H. destruct (match_selection_inv _ _ _ H) as (L' & HL' & ->).
  rewrite HL in HL'. injection HL' as <-.
  assert (Hs : StronglySorted (desc Match.templateSimilarity)
                 (Response.matches (respond L (sweep L clock)))).
  { rewrite respond_matches.
    apply (StronglySorted_map (desc Match.templateSimilarity)).
    rewrite kept_candidates_pick.
    apply nms_pick_sorted, sorted_desc_sorted. }
  split; [apply respond_matches |].
  split; [exact Hs |].
  split; [apply respond_best |].
  intros best m Hb Hm. rewrite respond_best in Hb.
  destruct (Response.matches (respond L (sweep L clock))) as [| m0 ms];
    [destruct Hm |].
  injection Hb as <-. destruct Hm as [<- | Hm]; [lra |].
  apply StronglySorted_inv in Hs. destruct Hs as [_ Hall].
  rewrite Forall_forall in Hall. exact (Hall m Hm).
Qed.

(** X20: There are at most [max_matches] matches and at most as many as
    candidates were kept over all passes; when [max_matches] is at least
    1, the list of matches is empty only if the sweep found no
    candidate. *)
Theorem matches_count payload clock L resp :
  prepare payload = inr L ->
  fst (match_selection payload clock) = inr resp ->
  (Z.of_nat (List.length (Response.matches resp))
   <= Z.max 0 (MatchOptions.max_matches (resolved_options payload)))%Z /\
  (Z.of_nat (List.length (Response.matches resp))
   <= total_kept (Response.stats resp))%Z /\
  ((1 <= MatchOptions.max_matches (resolved_options payload))%Z ->
   Response.matches resp = [] ->
   Sweep.candidates (sweep L clock) = []).
Proof.
  intros HL H. destruct (match_selection_inv _ _ _ H) as (L' & HL' & ->).
  rewrite HL in HL'. injection HL' as <-.
  destruct (prepare_inv payload L HL)
    as (img & r & b & _ & _ & _ & _ & _ & _ & Hopt & _).
  rewrite respond_matches, respond_stats, length_map, <- Hopt.
  assert (Hin : (List.length (kept_candidates L (sweep L clock))
                 <= List.length (Sweep.candidates (sweep L clock)))%nat).
  { rewrite kept_candidates_pick,
      <- (sorted_desc_length Candidate.score (Sweep.candidates _)).
    apply nms_pick_length_input. }
  assert (Hmax : (List.length (kept_candidates L (sweep L clock))
                  <= Z.to_nat (MatchOptions.max_matches (Locals.options L)))%nat)
    by (rewrite kept_candidates_pick; apply nms_pick_length).
  split; [lia |]. split.
  - assert (Hsum : Z.of_nat (List.length (Sweep.candidates (sweep L clock)))
                   = total_kept (Sweep.stats (sweep L clock))).
    { apply (sweep_invariant L
               (fun st => Z.of_nat (List.length (Sweep.candidates st))
                          = total_kept (Sweep.stats st))); [| reflexivity].
      intros scale rotation variant st _ _ Hst.
      unfold run_pass, perf_counter.
      cbn [Sweep.candidates Sweep.stats].
      rewrite length_app, length_map, Nat2Z.inj_add, Hst.
      unfold total_kept. rewrite fold_right_app. cbn [fold_right PassStat.kept].
      generalize (Sweep.stats st). intro l.
      induction l as [| s l IH]; cbn [fold_right]; lia. }
    lia.
  - intros H1 Hnil. apply map_eq_nil in Hnil.
    destruct (Sweep.candidates (sweep L clock)) as [| c cs] eqn:Hc;
      [reflexivity |].
    exfalso. rewrite kept_candidates_pick, Hc in Hnil.
    pose proof (sorted_desc_length Candidate.score (c :: cs)) as Hlen.
    destruct (sorted_desc Candidate.score (c :: cs)) as [| c' cs'];
      [discriminate Hlen |].
    destruct (Z.to_nat (MatchOptions.max_matches (Locals.options L)))
      as [| k] eqn:Hk; [lia | discriminate Hnil].
Qed.

End Matches.

Section Thresholds.
Context {E : Externals}.

Lemma prepare_inv_options payload L :
  prepare payload = inr L ->
  Locals.min_similarity L
  = clamp (MatchOptions.min_similarity (resolved_options payload)) (-1) 1 /\
  Locals.template_label L
  = string_or (MatchOptions.label (resolved_options payload)) "template-match".
Proof.
  unfold prepare. intro H.
  destruct (decode_image_data (MatchRequest.image payload))
    as [exc | image_bgr]; [discriminate H |].
  destruct (_ || _) in H; [discriminate H |].
  destruct (normalized_to_pixels (MatchRequest.coordinates payload) _ _)
    as [[[sel_left sel_top] sel_right] sel_bottom].
  fold (resolved_options payload) in H.
  fold (resolved_search_box payload) in H.
  destruct (normalized_to_pixels (resolved_search_box payload) _ _)
    as [[[search_left search_top] search_right] search_bottom].
  destruct (_ || _) in H; [discriminate H |].
  destruct (maybe_downscale_search _ _) as [[s t] f].
  injection H as <-. split; reflexivity.
Qed.

(** X21: Every match reaches the similarity asked for, as numpy
    compares it: its [templateSimilarity] is at least the single-precision
    value of [min_similarity] clamped to [-1, 1]; its [confidence] is
    that same similarity, and its label is the label of the request, or
    "template-match" when that is unset or empty. *)
Theorem matches_reach_threshold payload clock resp :
  fst (match_selection payload clock) = inr resp ->
  Forall (fun m =>
            float32
              (clamp (MatchOptions.min_similarity (resolved_options payload))
                     (-1) 1)
            <= Match.templateSimilarity m /\
            Match.confidence m = Match.templateSimilarity m /\
            Match.label m
            = string_or (MatchOptions.label (resolved_options payload))
                        "template-match")
         (Response.matches resp).
Proof.
  intro H. destruct (match_selection_inv _ _ _ H) as (L & HL & ->).
  destruct (prepare_inv_options payload L HL) as [Hmin Hlabel].
  rewrite respond_matches, <- Hmin, <- Hlabel.
  apply Forall_map. rewrite kept_candidates_pick.
  apply nms_pick_Forall, sorted_desc_Forall.
  assert (Hall : Forall (fun c => float32 (Locals.min_similarity L)
                                  <= Candidate.score c)
                        (Sweep.candidates (sweep L clock))).
  { apply (sweep_invariant L
             (fun st => Forall (fun c => float32 (Locals.min_similarity L)
                                         <= Candidate.score c)
                               (Sweep.candidates st))); [| constructor].
    intros scale rotation variant st _ _ Hst.
    unfold run_pass, perf_counter. cbn [Sweep.candidates].
    apply Forall_app. split; [exact Hst |].
    destruct (if (Np.size _ =? 0)%Z then None else Np.amax _);
      [| constructor].
    apply Forall_forall. intros c Hc.
    apply in_map_iff in Hc. destruct Hc as (xy & <- & Hxy).
    cbn [Candidate.score]. now apply pass_hits_above in Hxy. }
  eapply Forall_impl; [| exact Hall].
  intros c Hc. cbn [match_of Match.templateSimilarity Match.confidence
                    Match.label]. auto.
Qed.

Lemma amax_nonempty (a : ndarray Q) :
  Np.size a <> 0%Z -> exists v, Np.amax a = Some v.
Proof.
  intro H. unfold Np.amax.
  pose proof (indices_length a) as Hlen.
  destruct (Np.indices a) as [| rc rcs]; simpl.
  - unfold Np.size, Np.shape0, Np.shape1 in H. simpl in Hlen. nia.
  - eexists. reflexivity.
Qed.

(** X22: In every stats entry [kept] is between 0 and
    [max(max_matches * 6, 400)] and at most [candidates], the number of
    cells of the correlation map; and [bestSimilarity] is missing
    exactly when the map had no cell. *)
Theorem stats_entries_bounded payload clock resp :
  fst (match_selection payload clock) = inr resp ->
  Forall (fun s =>
            (0 <= PassStat.kept s
             <= Z.max (MatchOptions.max_matches (resolved_options payload)
                       * MAX_PASS_HITS_MULTIPLIER) 400)%Z /\
            (PassStat.kept s <= PassStat.candidates s)%Z /\
            (PassStat.bestSimilarity s = None <->
             PassStat.candidates s = 0%Z))
         (Response.stats resp).
Proof.
  intro H. destruct (match_selection_inv _ _ _ H) as (L & HL & ->).
  destruct (prepare_inv payload L HL)
    as (img & r & b & _ & _ & _ & _ & _ & _ & Hopt & _).
  rewrite respond_stats, <- Hopt.
  apply (sweep_invariant L
           (fun st => Forall _ (Sweep.stats st))); [| constructor].
  intros scale rotation variant st _ _ Hst.
  unfold run_pass, perf_counter. cbn [Sweep.stats].
  apply Forall_app. split; [exact Hst |].
  constructor; [| constructor].
  cbn [PassStat.kept PassStat.candidates PassStat.bestSimilarity].
  set (result := matchTemplate (Locals.search_surface L) variant).
  destruct (pass_hits_length result (float32 (Locals.min_similarity L))
              (MatchOptions.max_matches (Locals.options L))) as [Hcap Hcells].
  destruct (Z.eqb_spec (Np.size result) 0) as [Hz | Hnz].
  - rewrite Hz. simpl.
    pose proof (Z.le_max_r
                  (MatchOptions.max_matches (Locals.options L)
                   * MAX_PASS_HITS_MULTIPLIER) 400).
    repeat split; lia.
  - destruct (amax_nonempty result Hnz) as [v ->].
    repeat split; try lia; try discriminate; try contradiction.
Qed.

End Thresholds.

(** ** The passes and their hits *)

Section Passes.
Context {E : Externals}.

(** X23: Every executed pass pairs a scale of the scale list with a rotation
    of the rotation list, so there are at most as many passes as such
    pairs. *)
Theorem executed_passes_from_lists (L : Locals.t) :
  (forall scale rotation,
     In (scale, rotation) (executed_passes L) ->
     In scale (Locals.default_scales L) /\
     In rotation (Locals.default_rotations L)) /\
  (List.length (executed_passes L)
   <= List.length (Locals.default_scales L)
      * List.length (Locals.default_rotations L))%nat.
Proof.
  unfold executed_passes. split.
  - intros scale rotation H. apply in_flat_map in H.
    destruct H as (s & Hs & Hin). unfold scale_passes in Hin.
    cbv zeta in Hin.
    destruct (_ || _) in Hin; [destruct Hin |].
    destruct (_ || _) in Hin; [destruct Hin |].
    apply in_map_iff in Hin. destruct Hin as (r & Heq & Hr).
    injection Heq as <- <-. apply filter_In in Hr. tauto.
  - induction (Locals.default_scales L) as [| scale scales IH];
      [simpl; lia |].
    cbn [flat_map]. rewrite length_app. cbn [List.length].
    assert (Hone : (List.length (scale_passes L scale)
                    <= List.length (Locals.default_rotations L))%nat).
    { unfold scale_passes. cbv zeta.
      destruct (_ || _); [simpl; lia |].
      destruct (_ || _); [simpl; lia |].
      rewrite length_map. apply filter_length_le. }
    lia.
Qed.

End Passes.

Lemma StronglySorted_app_inv {A} (R : A -> A -> Prop) (l1 l2 : list A) :
  StronglySorted R (l1 ++ l2) ->
  forall a b, In a l1 -> In b l2 -> R a b.
Proof.
  induction l1 as [| x l1 IH]; intros Hs a b Ha Hb; [destruct Ha |].
  simpl in Hs. apply StronglySorted_inv in Hs. destruct Hs as [Hs Hall].
  destruct Ha as [<- | Ha].
  - rewrite Forall_forall in Hall. apply Hall. apply in_or_app. now right.
  - now apply IH.
Qed.

(** X24: When a pass has more hits than its cap, the hits it drops score no
    higher than the hits it keeps. *)
Theorem pass_hits_keep_highest
    (result : ndarray Q) (min_similarity : Q) (max_matches : Z)
    (kept dropped : nat * nat) :
  In kept (pass_hits result min_similarity max_matches) ->
  In (snd dropped, fst dropped) (Np.where_ge result min_similarity) ->
  ~ In dropped (pass_hits result min_similarity max_matches) ->
  cell result (snd dropped) (fst dropped)
  <= cell result (snd kept) (fst kept).
Proof.
  unfold pass_hits.
  set (hits := List.map (fun rc : nat * nat => (snd rc, fst rc))
                        (Np.where_ge result min_similarity)).
  set (scored := sorted_desc fst
                   (List.map (fun xy : nat * nat =>
                                (cell result (snd xy) (fst xy), xy)) hits)).
  assert (Hd : In dropped hits ->
               In (cell result (snd dropped) (fst dropped), dropped) scored).
  { intro H. apply sorted_desc_In_iff. apply in_map_iff.
    now exists dropped. }
  intros Hk Hw Hn.
  assert (Hin : In dropped hits).
  { apply in_map_iff. exists (snd dropped, fst dropped).
    split; [now destruct dropped | exact Hw]. }
  destruct (_ <? _)%Z; [| contradiction].
  set (n := Z.to_nat _) in *.
  apply in_map_iff in Hk. destruct Hk as ([v k] & Hk1 & Hk).
  simpl in Hk1. subst k.
  assert (Hv : v = cell result (snd kept) (fst kept)).
  { apply firstn_In, sorted_desc_In in Hk. apply in_map_iff in Hk.
    destruct Hk as (q & Heq & _). now injection Heq as <- <-. }
  specialize (Hd Hin).
  rewrite <- (firstn_skipn n scored) in Hd.
  apply in_app_or in Hd. destruct Hd as [Hd | Hd].
  - exfalso. apply Hn. apply in_map_iff.
    now exists (cell result (snd dropped) (fst dropped), dropped).
  - pose proof (sorted_desc_sorted fst
                  (List.map (fun xy : nat * nat =>
                               (cell result (snd xy) (fst xy), xy)) hits))
      as Hs.
    fold scored in Hs. rewrite <- (firstn_skipn n scored) in Hs.
    pose proof (StronglySorted_app_inv _ _ _ Hs _ _ Hk Hd) as Hle.
    unfold desc in Hle. simpl in Hle. now rewrite <- Hv.
Qed.

(** ** Suppression does not depend on the order of the pool *)

Lemma insert_desc_perm {A} (key : A -> Q) (a : A) (l : list A) :
  Permutation (insert_desc key a l) (a :: l).
Proof.
  induction l as [| b l IH]; simpl; [reflexivity |].
  destruct (Py.ltb (key a) (key b)); [| reflexivity].
  rewrite IH. apply perm_swap.
Qed.

Lemma sorted_desc_perm {A} (key : A -> Q) (l : list A) :
  Permutation (sorted_desc key l) l.
Proof.
  induction l as [| a l IH]; [reflexivity |].
  change (sorted_desc key (a :: l)) with (insert_desc key a (sorted_desc key l)).
  rewrite insert_desc_perm. now constructor.
Qed.

(** Two descending arrangements of the same items are the same list
    when items with equal keys are equal. *)
Lemma descending_unique {A} (key : A -> Q) (l1 : list A) :
  forall l2,
    StronglySorted (desc key) l1 -> StronglySorted (desc key) l2 ->
    Permutation l1 l2 ->
    (forall a b, In a l1 -> In b l1 -> key a == key b -> a = b) ->
    l1 = l2.
Proof.
  induction l1 as [| a l1 IH]; intros l2 H1 H2 Hp Hkey.
  - apply Permutation_nil in Hp. now subst.
  - destruct l2 as [| b l2].
    { apply Permutation_sym, Permutation_nil in Hp. discriminate. }
    apply StronglySorted_inv in H1. destruct H1 as [H1 Ha].
    apply StronglySorted_inv in H2. destruct H2 as [H2 Hb].
    rewrite Forall_forall in Ha, Hb.
    assert (Hab : a = b).
    { assert (Hin_a : In a (b :: l2))
        by (eapply Permutation_in; [exact Hp | now left]).
      assert (Hin_b : In b (a :: l1))
        by (eapply Permutation_in;
            [apply Permutation_sym; exact Hp | now left]).
      destruct Hin_a as [-> | Hin_a]; [reflexivity |].
      destruct Hin_b as [-> | Hin_b]; [reflexivity |].
      apply Hkey; [now left | now right |].
      specialize (Ha b Hin_b). specialize (Hb a Hin_a).
      unfold desc in Ha, Hb. lra. }
    subst b. f_equal.
    apply IH; [exact H1 | exact H2 | |].
    + eapply Permutation_cons_inv. exact Hp.
    + intros x y Hx Hy. apply Hkey; now right.
Qed.

(** X13: When boxes with equal scores are equal boxes, the result of
    [non_max_suppression] does not depend on the order in which the
    boxes are pooled. *)
Theorem nms_order_independent
    (boxes boxes' : list Candidate.t) (iou_threshold : Q)
    (max_detections : Z) :
  Permutation boxes boxes' ->
  (forall a b, In a boxes -> In b boxes ->
               Candidate.score a == Candidate.score b -> a = b) ->
  non_max_suppression boxes iou_threshold max_detections
  = non_max_suppression boxes' iou_threshold max_detections.
Proof.
  intros Hp Hkey. rewrite !nms_output_pick. f_equal.
  apply (descending_unique Candidate.score).
  - apply sorted_desc_sorted.
  - apply sorted_desc_sorted.
  - rewrite !sorted_desc_perm. exact Hp.
  - intros a b Ha Hb. apply Hkey; now apply (sorted_desc_In_iff Candidate.score).
Qed.

Lemma nms_order_independent_witness :
  non_max_suppression [box_b; box_far; box_a] (1 # 10) 5
  = non_max_suppression [box_a; box_b; box_far] (1 # 10) 5.
Proof.
  apply nms_order_independent.
  - apply Permutation_sym. apply (Permutation_cons_app [box_b; box_far] []).
    reflexivity.
  - intros a b Ha Hb Heq. simpl in Ha, Hb.
    destruct Ha as [<- | [<- | [<- | []]]];
    destruct Hb as [<- | [<- | [<- | []]]];
    try reflexivity; vm_compute in Heq; discriminate.
Defined.

(** ** The properties above on the sample requests *)

Lemma match_selection_rejections_witness :
  let exc := mkHTTPException 400 "Selection too small for template matching" in
  Stub.ticking 1 = Stub.ticking 1 /\ status_code exc = 400%Z /\
  ((exists msg,
      @decode_image_data Stub.plain (MatchRequest.image tiny_request) = inl msg /\
      detail exc = ("Failed to decode image: " ++ msg)%string) \/
   detail exc = "Invalid image dimensions"%string \/
   detail exc = "Selection too small for template matching"%string).
Proof.
  apply (@match_selection_rejections Stub.plain tiny_request (Stub.ticking 1)).
  vm_compute. reflexivity.
Defined.

Lemma response_echoes_request_witness :
  let resp := @Stub.response_of peaked20 centre_request (Stub.ticking 1) in
  Response.selection resp = MatchRequest.coordinates centre_request /\
  Response.searchRegion resp = resolved_search_box centre_request.
Proof.
  apply (@response_echoes_request peaked20 centre_request (Stub.ticking 1)).
  vm_compute. reflexivity.
Defined.


Lemma matches_ranked_witness :
  let L := @Stub.locals_of peaked20 centre_request in
  let resp := @Stub.response_of peaked20 centre_request (Stub.ticking 1) in
  Response.matches resp
  = List.map (match_of L)
             (kept_candidates L (@sweep peaked20 L (Stub.ticking 1))) /\
  StronglySorted (desc Match.templateSimilarity) (Response.matches resp) /\
  Response.bestSimilarity resp
  = match Response.matches resp with
    | m :: _ => Some (Match.templateSimilarity m)
    | [] => None
    end /\
  (forall best m,
     Response.bestSimilarity resp = Some best ->
     In m (Response.matches resp) ->
     Match.templateSimilarity m <= best).
Proof.
  apply (@matches_ranked peaked20 centre_request (Stub.ticking 1));
    vm_compute; reflexivity.
Defined.

Lemma matches_count_witness :
  let L := @Stub.locals_of peaked20 centre_request in
  let resp := @Stub.response_of peaked20 centre_request (Stub.ticking 1) in
  (Z.of_nat (List.length (Response.matches resp))
   <= Z.max 0 (MatchOptions.max_matches (resolved_options centre_request)))%Z /\
  (Z.of_nat (List.length (Response.matches resp))
   <= total_kept (Response.stats resp))%Z /\
  ((1 <= MatchOptions.max_matches (resolved_options centre_request))%Z ->
   Response.matches resp = [] ->
   Sweep.candidates (@sweep peaked20 L (Stub.ticking 1)) = []).
Proof.
  apply (@matches_count peaked20 centre_request (Stub.ticking 1));
    vm_compute; reflexivity.
Defined.

Lemma matches_reach_threshold_witness :
  Forall (fun m =>
            @float32 peaked20
              (clamp (MatchOptions.min_similarity
                        (resolved_options centre_request)) (-1) 1)
            <= Match.templateSimilarity m /\
            Match.confidence m = Match.templateSimilarity m /\
            Match.label m
            = string_or (MatchOptions.label (resolved_options centre_request))
                        "template-match")
         (Response.matches
            (@Stub.response_of peaked20 centre_request (Stub.ticking 1))).
Proof.
  apply (@matches_reach_threshold peaked20 centre_request (Stub.ticking 1)).
  vm_compute. reflexivity.
Defined.

Lemma stats_entries_bounded_witness :
  Forall (fun s =>
            (0 <= PassStat.kept s
             <= Z.max (MatchOptions.max_matches (resolved_options centre_request)
                       * MAX_PASS_HITS_MULTIPLIER) 400)%Z /\
            (PassStat.kept s <= PassStat.candidates s)%Z /\
            (PassStat.bestSimilarity s = None <->
             PassStat.candidates s = 0%Z))
         (Response.stats
            (@Stub.response_of peaked20 centre_request (Stub.ticking 1))).
Proof.
  apply (@stats_entries_bounded peaked20 centre_request (Stub.ticking 1)).
  vm_compute. reflexivity.
Defined.

Lemma not_In_by_test (p : nat * nat) (l : list (nat * nat)) :
  existsb (fun q => Nat.eqb (fst q) (fst p) && Nat.eqb (snd q) (snd p)) l
  = false ->
  ~ In p l.
Proof.
  intros H Hin.
  assert (Ht : existsb (fun q => Nat.eqb (fst q) (fst p)
                                 && Nat.eqb (snd q) (snd p)) l = true).
  { apply existsb_exists. exists p.
    split; [exact Hin | now rewrite !Nat.eqb_refl]. }
  congruence.
Qed.

Lemma In_by_test (p : nat * nat) (l : list (nat * nat)) :
  existsb (fun q => Nat.eqb (fst q) (fst p) && Nat.eqb (snd q) (snd p)) l
  = true ->
  In p l.
Proof.
  intro H. apply existsb_exists in H. destruct H as ([a b] & Hin & Heq).
  apply andb_true_iff in Heq. destruct Heq as [Ha Hb].
  apply Nat.eqb_eq in Ha, Hb. simpl in Ha, Hb. destruct p as [c d].
  simpl in *. now subst.
Qed.

Lemma pass_hits_keep_highest_witness :
  cell Stub.ramp 0 3 <= cell Stub.ramp 20 20.
Proof.
  apply (pass_hits_keep_highest Stub.ramp 0 10 (20, 20)%nat (3, 0)%nat).
  - apply In_by_test. vm_compute. reflexivity.
  - apply In_by_test. vm_compute. reflexivity.
  - apply not_In_by_test. vm_compute. reflexivity.
Defined.



(** * Properties that depend on rounding *)

(** ** Roundings *)


Lemma exact_rounding : Rounding Rounded.exact.
Proof.
  split; unfold Rounded.exact; intros; try assumption; reflexivity.
Qed.



(** ** Intersection over union under rounding *)

Section RoundedIou.
Variable rnd : Q -> Q.
Context {R : Rounding rnd}.

#[local] Instance rnd_proper : Proper (Qeq ==> Qeq) rnd.
Proof. intros a b H. now apply rnd_compat. Qed.





End RoundedIou.



(** Without rounding, the rounded function is the function the
    suppression calls. *)
Lemma rounded_iou_exact (a b : Candidate.t) :
  Rounded.intersection_over_union Rounded.exact a b
  = intersection_over_union a b.
Proof. reflexivity. Qed.

(** In binary64 the overlap of the box (0.1, 0.1, 0.2, 0.2) with itself
    is 1 + 2^-51, which prints as 1.0000000000000004: the subtraction
    [(0.1 + 0.2) - 0.1] does not give back 0.2. *)
Lemma iou_self_binary64 :
  B64.to_Q (B64.intersection_over_union B64.fifth_box B64.fifth_box)
  == 1 + (1 # 2) ^ 51 /\
  B64.lt B64.fifth
         (PrimFloat.sub (PrimFloat.add B64.tenth B64.fifth) B64.tenth).
Proof. split; vm_compute; reflexivity. Qed.

(** ** [expand_box] in binary64 *)

(** C6: in binary64 [expand_box] does not keep its contract on two
    rectangles that pass the [Selection] constraints and lie inside the
    unit square.  On
    [(0.02, 0, 0.1, 1)] with padding [2^-55] it returns a rectangle
    whose far edge [x + width] is 0.12, left of the far edge
    0.12000000000000001 of the rectangle it was given, both as binary64
    sums and as exact sums.  On [(0.5, 0.5, 2^-60, 2^-60)] with padding
    0.5 both clamped edges round to 0.5, the width is 0, and
    [Selection(...)] raises instead of returning. *)
Theorem expand_box_binary64_contract_lost :
  B64.validates B64.strip = true /\
  B64.inside B64.strip = true /\
  B64.lt B64.zero B64.faint_padding /\
  (exists s,
     B64.expand_box B64.strip B64.faint_padding = B64.Returned s /\
     B64.lt (PrimFloat.add (B64.x s) (B64.width s))
            (PrimFloat.add (B64.x B64.strip) (B64.width B64.strip)) /\
     B64.to_Q (B64.x s) + B64.to_Q (B64.width s)
     < B64.to_Q (B64.x B64.strip) + B64.to_Q (B64.width B64.strip)) /\
  B64.validates B64.speck = true /\
  B64.inside B64.speck = true /\
  B64.lt B64.zero B64.half_padding /\
  B64.expand_box B64.speck B64.half_padding = B64.ValidationError.
Proof.
  split; [vm_compute; reflexivity |].
  split; [vm_compute; reflexivity |].
  split; [vm_compute; reflexivity |].
  split.
  - eexists. split; [vm_compute; reflexivity |].
    split; vm_compute; reflexivity.
  - split; [vm_compute; reflexivity |].
    split; [vm_compute; reflexivity |].
    split; vm_compute; reflexivity.
Qed.

(** C8: the search box is resolved before the size of the selection is
    looked at, and in binary64 resolving it can raise: for the selection
    [(0.5, 0.5, 2^-60, 2^-60)], which passes the [Selection] constraints,
    and [search_padding = 0.5], which passes the [MatchOptions]
    constraint, [expand_box] ends in the validation error of
    [Selection(...)].  [match_selection] does not catch it, so the
    request ends in it, whatever the image, and never reaches the
    "Selection too small" rejection. *)
Theorem search_box_binary64_raises :
  B64.validates B64.speck = true /\
  B64.padding_validates B64.half_padding = true /\
  B64.search_box B64.speck (Some B64.half_padding) = B64.ValidationError /\
  B64.search_box B64.speck None = B64.Returned B64.whole.
Proof.
  split; [vm_compute; reflexivity |].
  split; [vm_compute; reflexivity |].
  split; vm_compute; reflexivity.
Qed.

(** ** Empty sweep lists on a small image *)

(** C10, last clause: with [scales = []] and [rotations = []] the
    default lists are swept, and on a 5x5 image selected whole every
    default scale is skipped: the resized templates are 3, 4, 5, 6 and
    7 pixels wide, the first two less than 5 and the others not smaller
    than the 5x5 search patch.  No pass is executed and [stats] is
    empty. *)
Lemma empty_lists_zero_pass_sweep :
  MatchOptions.scales empty_lists_options = Some [] /\
  MatchOptions.rotations empty_lists_options = Some [] /\
  Locals.default_scales (@Stub.locals_of small5 whole_image_request)
  = [65 # 100; 85 # 100; 1; 12 # 10; 145 # 100] /\
  Locals.default_rotations (@Stub.locals_of small5 whole_image_request)
  = [0] /\
  List.map (fun scale =>
              Np.shape1 (@resize_linear small5
                (Locals.base_template
                   (@Stub.locals_of small5 whole_image_request))
                scale scale))
           (Locals.default_scales (@Stub.locals_of small5 whole_image_request))
  = [3; 4; 5; 6; 7]%Z /\
  @executed_passes small5 (@Stub.locals_of small5 whole_image_request) = [] /\
  fst (@match_selection small5 whole_image_request (Stub.ticking 1))
  = inr (Response.mk [] [] None (Selection.mk 0 0 1 1) (Selection.mk 0 0 1 1)).
Proof.
  repeat (split; [vm_compute; reflexivity |]).
  vm_compute; reflexivity.
Qed.

(** ** Bounding boxes of a response *)

Section ReturnedBoxes.
Context {E : Externals} {S : ExternalsSpec E}.



End ReturnedBoxes.

